(** * Population simulation: the tick engine of [src/pages/index.tsx]

    The page component [Home] keeps the whole simulation in React state
    hooks and changes it from four places: the slider [onChange] handlers,
    the Start/Pause button, the Reset button ([handleResetClick]) and the
    callback of the 500 ms interval that the "Run simulation" effect installs
    while [isRunning] holds.  This file embeds that state and those handlers
    as pure functions on a record and proves the properties of the engine.

    Numbers.  A JavaScript [number] is an IEEE 754 binary64 value, and so is
    Rocq's primitive [float]: [+], [-], [*], [/] and the comparisons of the
    page are the primitive operations, with their rounding, infinities and
    NaN.  [Math.round], [Math.floor] and [Math.max] are defined below from
    the exact value of their argument.  The tick counter [time] and the ages
    are integers that stay far below 2^53, where binary64 counts exactly;
    they are modelled in [Z].

    Timers.  The handlers and the tick are functions on the hooks; the
    order in which they run is a list of events.  Where the time between
    events matters (the warning of the Reset button, hidden again after
    3000 ms), the hooks are put on a page with a clock and its pending
    timers.

    Facts about one given float are proved by evaluation.  Facts about all
    floats rest on the specification of the primitive operations
    ([FloatAxioms], over [SpecFloat]). *)

From Stdlib Require Import ZArith Floats Bool List String Lia.
Import ListNotations.
Set Warnings "-inexact-float".
Open Scope float_scope.

(** ** Numbers and the [Math] functions the page calls *)

(** The float with the value of the integer [z] (exact below 2^53). *)
Definition Z2float (z : Z) : float :=
  SF2Prim (binary_normalize prec emax z 0%Z false).

(** The float with the integer value [z] when [z] is not zero, and the zero
    with the sign bit [zero_sign] when it is. *)
Definition integral (zero_sign : bool) (z : Z) : float :=
  if (z =? 0)%Z then (if zero_sign then neg_zero else zero) else Z2float z.

(** [Math.round]: the nearest integer, a tie going to the larger one.  NaN,
    the infinities and the zeros are returned as they are, and so is a value
    with no fractional bits.  Otherwise the argument is [n / d] with
    [d = 2^(-e)], and the result is [floor (n / d + 1 / 2)]; a negative
    argument that rounds to zero gives [-0]. *)
Definition Math_round (x : float) : float :=
  match Prim2SF x with
  | S754_finite s m e =>
      if (0 <=? e)%Z then x
      else
        let d := (2 ^ (- e))%Z in
        let n := cond_Zopp s (Zpos m) in
        integral s ((2 * n + d) / (2 * d))%Z
  | _ => x
  end.

(** [Math.floor]: the largest integer that is not above the argument. *)
Definition Math_floor (x : float) : float :=
  match Prim2SF x with
  | S754_finite s m e =>
      if (0 <=? e)%Z then x
      else
        let d := (2 ^ (- e))%Z in
        let n := cond_Zopp s (Zpos m) in
        integral false (n / d)%Z
  | _ => x
  end.

(** [Math.max(a, b)]: NaN when an argument is NaN, else the larger one,
    where [+0] counts as larger than [-0]. *)
Definition Math_max (a b : float) : float :=
  if is_nan a || is_nan b then nan
  else if a <? b then b
  else if b <? a then a
  else if get_sign a then b else a.

(** [Object.is], the comparison React uses to see whether a state value or
    a dependency of an effect has changed. *)
Definition Object_is (a b : float) : bool := Leibniz.eqb a b.

(** ** Data model *)

(** [interface DataPoint]: one entry of the recorded series. *)
Module DataPoint.
Record t : Type := mk { time : Z; population : float; delta : float }.
End DataPoint.

(** [interface AgeGroup]. *)
Module AgeGroup.
Record t : Type := mk {
  minAge : Z;
  maxAge : Z;
  fertilityRate : float;
  mortalityRate : float;
  color : string
}.
End AgeGroup.

(** [interface PopulationByAge]. *)
Module PopulationByAge.
Record t : Type := mk { age : Z; count : float }.
End PopulationByAge.

(** The state hooks of [Home].  [ageGroups] has a hook too, but its setter is
    never called, so it is the constant below. *)
Record State : Type := mkState {
  startingPopulation : float;
  replicationChance : float;
  deathChance : float;
  crowdingCoefficient : float;
  population : float;
  time : Z;
  data : list DataPoint.t;
  isRunning : bool;
  populationByAge : list PopulationByAge.t;
  showResetWarning : bool
}.

Definition ageGroups : list AgeGroup.t :=
  [ AgeGroup.mk 0 5 0 0.08 "#4CAF50";
    AgeGroup.mk 6 15 0.2 0.05 "#2196F3";
    AgeGroup.mk 16 25 0.15 0.06 "#9C27B0";
    AgeGroup.mk 26 40 0.05 0.1 "#FF9800" ].

(** The setters of the hooks. *)
Definition setStartingPopulation (v : float) (s : State) : State :=
  mkState v (replicationChance s) (deathChance s) (crowdingCoefficient s)
          (population s) (time s) (data s) (isRunning s)
          (populationByAge s) (showResetWarning s).

Definition setReplicationChance (v : float) (s : State) : State :=
  mkState (startingPopulation s) v (deathChance s) (crowdingCoefficient s)
          (population s) (time s) (data s) (isRunning s)
          (populationByAge s) (showResetWarning s).

Definition setDeathChance (v : float) (s : State) : State :=
  mkState (startingPopulation s) (replicationChance s) v
          (crowdingCoefficient s)
          (population s) (time s) (data s) (isRunning s)
          (populationByAge s) (showResetWarning s).

Definition setCrowdingCoefficient (v : float) (s : State) : State :=
  mkState (startingPopulation s) (replicationChance s) (deathChance s) v
          (population s) (time s) (data s) (isRunning s)
          (populationByAge s) (showResetWarning s).

Definition setPopulation (v : float) (s : State) : State :=
  mkState (startingPopulation s) (replicationChance s) (deathChance s)
          (crowdingCoefficient s)
          v (time s) (data s) (isRunning s)
          (populationByAge s) (showResetWarning s).

Definition setTime (v : Z) (s : State) : State :=
  mkState (startingPopulation s) (replicationChance s) (deathChance s)
          (crowdingCoefficient s)
          (population s) v (data s) (isRunning s)
          (populationByAge s) (showResetWarning s).

(** [setData] is called with a value in [resetSimulation] and with an
    updater function in the interval callback; the updater form covers
    both. *)
Definition setData (f : list DataPoint.t -> list DataPoint.t) (s : State)
  : State :=
  mkState (startingPopulation s) (replicationChance s) (deathChance s)
          (crowdingCoefficient s)
          (population s) (time s) (f (data s)) (isRunning s)
          (populationByAge s) (showResetWarning s).

Definition setIsRunning (v : bool) (s : State) : State :=
  mkState (startingPopulation s) (replicationChance s) (deathChance s)
          (crowdingCoefficient s)
          (population s) (time s) (data s) v
          (populationByAge s) (showResetWarning s).

Definition setPopulationByAge (v : list PopulationByAge.t) (s : State)
  : State :=
  mkState (startingPopulation s) (replicationChance s) (deathChance s)
          (crowdingCoefficient s)
          (population s) (time s) (data s) (isRunning s)
          v (showResetWarning s).

Definition setShowResetWarning (v : bool) (s : State) : State :=
  mkState (startingPopulation s) (replicationChance s) (deathChance s)
          (crowdingCoefficient s)
          (population s) (time s) (data s) (isRunning s)
          (populationByAge s) v.

(** ** [initializeAgeDistribution] and [resetSimulation] *)

(** [Math.max(...xs)] on integers; [None] stands for the [-Infinity] that
    the call returns on an empty argument list. *)
Definition Math_max_list (xs : list Z) : option Z :=
  match xs with
  | [] => None
  | x :: rest => Some (fold_left Z.max rest x)
  end.

(** The values [0, 1, ..., hi] that the loop variable [age] takes. *)
Definition ages (hi : Z) : list Z :=
  map Z.of_nat (seq 0 (Z.to_nat (hi + 1))).

(** [initializeAgeDistribution]: the same count for every age from 0 to the
    largest [maxAge]. *)
Definition initializeAgeDistribution (s : State) : State :=
  let distribution :=
    match Math_max_list (map AgeGroup.maxAge ageGroups) with
    | None => []
    | Some maxAge =>
        map (fun age =>
               PopulationByAge.mk age
                 (Math_floor (startingPopulation s / Z2float (maxAge + 1))))
            (ages maxAge)
    end in
  setPopulationByAge distribution s.

(** [resetSimulation]: pause, then reseed population, time and series from
    [startingPopulation], then the age distribution. *)
Definition resetSimulation (s : State) : State :=
  let s1 := setIsRunning false s in
  let s2 := setPopulation (startingPopulation s) s1 in
  let s3 := setTime 0%Z s2 in
  let s4 :=
    setData (fun _ => [DataPoint.mk 0 (startingPopulation s) 0]) s3 in
  initializeAgeDistribution s4.

(** The initial values of the hooks. *)
Definition initialState : State :=
  mkState 100 0.1 0.05 0.001
          100 0%Z [DataPoint.mk 0 100 0] false [] false.

(** The state after the first render: the effect with dependency
    [startingPopulation] runs once on mount and calls [resetSimulation]. *)
Definition mount : State := resetSimulation initialState.

(** ** The tick: the callback of the interval *)

Definition growthRate (s : State) : float :=
  replicationChance s - deathChance s - crowdingCoefficient s * population s.

Definition populationChange (s : State) : float :=
  growthRate s * population s.

Definition newPopulation (s : State) : float :=
  Math_max 0 (Math_round (population s + populationChange s)).

Definition newTime (s : State) : Z := (time s + 1)%Z.

Definition tickDelta (s : State) : float := newPopulation s - population s.

(** The body of the [setInterval] callback. *)
Definition intervalCallback (s : State) : State :=
  let s1 := setPopulation (newPopulation s) s in
  let s2 := setTime (newTime s) s1 in
  let s3 :=
    setData (fun prevData =>
               prevData
                 ++ [DataPoint.mk (newTime s) (newPopulation s) (tickDelta s)])
            s2 in
  if newPopulation s <=? 0 then setIsRunning false s3 else s3.

(** One tick as the driver sees it.  The effect returns before it installs
    the interval when [isRunning] is false, so a tick then does nothing. *)
Definition advanceTick (s : State) : State :=
  if isRunning s then intervalCallback s else s.

(** [n] ticks in a row. *)
Fixpoint advanceTicks (n : nat) (s : State) : State :=
  match n with
  | O => s
  | S k => advanceTicks k (advanceTick s)
  end.

(** ** [calculateCarryingCapacity] *)

Definition calculateCarryingCapacity (s : State) : float :=
  if replicationChance s <=? deathChance s then 0
  else
    Math_round
      ((replicationChance s - deathChance s) / crowdingCoefficient s).

(** ** The buttons and the sliders *)

(** [handleResetClick]: a running simulation is not reset, the warning is
    shown instead.  The [setTimeout] of 3000 ms that the handler starts
    with the warning belongs to the page's timers: [timeoutsStarted]
    records it, and its callback is the event [WarningTimeout] below. *)
Definition handleResetClick (s : State) : State :=
  if isRunning s then setShowResetWarning true s else resetSimulation s.

(** The Start/Pause button. *)
Definition handleStartPauseClick (s : State) : State :=
  setIsRunning (negb (isRunning s)) s.

(** The slider of the starting population.  A value equal to the current
    one leaves the state as it is; a new value is stored, and the effect
    with dependency [startingPopulation] then calls [resetSimulation]. *)
Definition handleStartingPopulationChange (v : float) (s : State) : State :=
  if Object_is v (startingPopulation s) then s
  else resetSimulation (setStartingPopulation v s).

(** What the driver can do to the page: move one of the four sliders
    ([onChange], with [Number(e.target.value)]), click Start/Pause, set the
    running flag directly (the [setActive] of the specification, that is
    [setIsRunning]), click Reset, let the interval fire, and let the 3 s
    timeout of the reset warning expire. *)
Inductive event : Type :=
  | StartingPopulationChange (v : float)
  | ReplicationChanceChange (v : float)
  | DeathChanceChange (v : float)
  | CrowdingCoefficientChange (v : float)
  | StartPauseClick
  | SetActive (b : bool)
  | ResetClick
  | IntervalFire
  | WarningTimeout.

Definition handle (e : event) (s : State) : State :=
  match e with
  | StartingPopulationChange v => handleStartingPopulationChange v s
  | ReplicationChanceChange v => setReplicationChance v s
  | DeathChanceChange v => setDeathChance v s
  | CrowdingCoefficientChange v => setCrowdingCoefficient v s
  | StartPauseClick => handleStartPauseClick s
  | SetActive b => setIsRunning b s
  | ResetClick => handleResetClick s
  | IntervalFire => advanceTick s
  | WarningTimeout => setShowResetWarning false s
  end.

(** The events in the order they arrive, oldest first. *)
Definition run (es : list event) (s : State) : State :=
  fold_left (fun acc e => handle e acc) es s.

(** The slider of the starting population has [min="10"]: the values it
    delivers are not negative.  The other events carry no condition. *)
Definition accepted (e : event) : Prop :=
  match e with
  | StartingPopulationChange v => (0 <=? v) = true
  | _ => True
  end.

(** The states the page can be in: the mounted page, and any state an
    accepted event leads to. *)
Inductive reachable : State -> Prop :=
  | reachable_mount : reachable mount
  | reachable_handle (e : event) (s : State) :
      reachable s -> accepted e -> reachable (handle e s).

(** ** Scenarios *)

(** The claim's formula for the population after a tick, from the rates
    [r], [d], [c] and the population [P] before the tick. *)
Definition logisticStep (r d c P : float) : float :=
  Math_max 0 (Math_round (P + (r - d - c * P) * P)).

(** The mounted page with its default parameters, started. *)
Definition seed : State := handleStartPauseClick mount.

(** Scenario C: replication 0.01, death 0.1, starting population 50 and the
    crowding coefficient [c], set on the sliders, then started. *)
Definition scenarioC (c : float) : State :=
  run [ ReplicationChanceChange 0.01; DeathChanceChange 0.1;
        CrowdingCoefficientChange c; StartingPopulationChange 50;
        StartPauseClick ] mount.

(** Fastest growth the sliders allow and no crowding: replication 0.5,
    death 0, crowding 0, started from the default population, and then
    [n] ticks. *)
Definition unboundedGrowth (n : nat) : list event :=
  [ ReplicationChanceChange 0.5; DeathChanceChange 0;
    CrowdingCoefficientChange 0; StartPauseClick ]
  ++ repeat IntervalFire n.

(** A decline within the slider ranges that dies out: starting population
    10, replication 0, death 0.5, crowding 0.01, started. *)
Definition dyingOut : State :=
  run [ ReplicationChanceChange 0; DeathChanceChange 0.5;
        CrowdingCoefficientChange 0.01; StartingPopulationChange 10;
        StartPauseClick ] mount.

(** ** Properties of a state *)

(** [x] is not negative: it is at least 0, or it is NaN. *)
Definition notNegative (x : float) : Prop :=
  (0 <=? x) = true \/ is_nan x = true.

(** Entry [i] of the series carries the tick number [i]. *)
Definition ticksAreIndices (h : list DataPoint.t) : Prop :=
  forall (i : nat) (e : DataPoint.t),
    nth_error h i = Some e -> DataPoint.time e = Z.of_nat i.

(** The series starts with an entry whose delta is 0. *)
Definition seededSeries (h : list DataPoint.t) : Prop :=
  exists e rest, h = e :: rest /\ DataPoint.delta e = 0.

(** What every reachable state satisfies. *)
Record invariant (s : State) : Prop := {
  inv_length : Z.of_nat (List.length (data s)) = (time s + 1)%Z;
  inv_ticks : ticksAreIndices (data s);
  inv_seeded : seededSeries (data s);
  inv_starting : (0 <=? startingPopulation s) = true;
  inv_population : notNegative (population s);
  inv_series : Forall (fun e => notNegative (DataPoint.population e)) (data s)
}.

(** The rates of [s] are [r], [d] and [c]. *)
Definition sameRates (r d c : float) (s : State) : Prop :=
  replicationChance s = r /\ deathChance s = d /\ crowdingCoefficient s = c.

(** A set of populations that a tick with the rates [r], [d], [c] never
    leaves and in which a tick never pauses the simulation. *)
Definition closedUnderTick (r d c : float) (trace : list float) : Prop :=
  forall p : float,
    In p trace ->
    In (logisticStep r d c p) trace /\ (logisticStep r d c p <=? 0) = false.

(** The populations of scenario C with crowding coefficient 0.001. *)
Definition declineC : list float :=
  [50; 43; 37; 32; 28; 25; 22; 20; 18; 16; 14; 13; 12; 11; 10; 9; 8; 7; 6; 5].

(** The populations of scenario C with crowding coefficient 0.01, the
    largest value of the slider. *)
Definition declineC_max : list float := [50; 21; 15; 11; 9; 7; 6; 5; 4; 3].

(** The three rates are values their sliders can deliver: replication and
    death between 0 and 0.5, crowding between 0 and 0.01. *)
Definition withinSliders (s : State) : Prop :=
  (0 <=? replicationChance s) = true /\ (replicationChance s <=? 0.5) = true
  /\ (0 <=? deathChance s) = true /\ (deathChance s <=? 0.5) = true
  /\ (0 <=? crowdingCoefficient s) = true
  /\ (crowdingCoefficient s <=? 0.01) = true.

(** The events that advance or pause the ticks or move a rate slider; a
    reset and a new starting population are left out. *)
Definition tickAdvancement (e : event) : Prop :=
  match e with
  | IntervalFire | StartPauseClick | SetActive _ | WarningTimeout => True
  | ReplicationChanceChange v | DeathChanceChange v =>
      (0 <=? v) = true /\ (v <=? 0.5) = true
  | CrowdingCoefficientChange v => (0 <=? v) = true /\ (v <=? 0.01) = true
  | StartingPopulationChange _ | ResetClick => False
  end.

(** An entry of the series with population 0 and delta 0. *)
Definition extinctEntry (e : DataPoint.t) : Prop :=
  DataPoint.population e = 0 /\ DataPoint.delta e = 0.

(** [s'] comes after [s], has population zero and rates within the slider
    ranges, and its series is that of [s] followed by extinct entries. *)
Definition extinctSince (s s' : State) : Prop :=
  withinSliders s'
  /\ (population s' =? 0) = true
  /\ exists added, data s' = data s ++ added /\ Forall extinctEntry added.

(** [dyingOut] after its four ticks: population 0, paused. *)
Definition extinct : State := advanceTicks 4 dyingOut.

(** ** Specification-level floats

    The value of a float is read through [Prim2SF]; these two predicates
    speak about that reading. *)

(** Zero or finite: not NaN and not an infinity. *)
Definition SFfinite (x : spec_float) : bool :=
  match x with
  | S754_zero _ | S754_finite _ _ _ => true
  | _ => false
  end.

(** Zero, or finite and below 2^1000 in absolute value. *)
Definition SFsmall (x : spec_float) : Prop :=
  match x with
  | S754_zero _ => True
  | S754_finite _ m e => (Zpos (digits2_pos m) + e <= 1000)%Z
  | _ => False
  end.

(** * Further definitions: derived state and display *)

(** [Math.min(a, b)]: NaN when an argument is NaN, else the smaller one,
    where [-0] counts as smaller than [+0]. *)
Definition Math_min (a b : float) : float :=
  if is_nan a || is_nan b then nan
  else if a <? b then a
  else if b <? a then b
  else if get_sign a then a else b.

(** The width, in percent, of the bar under the tick counter:
    [Math.min(100, (time / 100) * 100)], on the float of the integer
    [time]. *)
Definition timeBarWidth (s : State) : float :=
  Math_min 100 ((Z2float (time s) / 100) * 100).

(** The width of the bar under the population:
    [Math.min(100, (population / 1000) * 100)]. *)
Definition populationBarWidth (s : State) : float :=
  Math_min 100 ((population s / 1000) * 100).

(** The width of the bar under the growth rate, for the delta [d] of the
    last entry: [Math.min(100, Math.abs(d / 10) * 100)]. *)
Definition deltaBarWidth (d : float) : float :=
  Math_min 100 (abs (d / 10) * 100).

(** The growth rate the page shows: the delta of [data[data.length - 1]]
    when [data.length > 1], and otherwise none (the fixed text "0.00"). *)
Definition displayedDelta (s : State) : option float :=
  if (1 <? List.length (data s))%nat
  then option_map DataPoint.delta
         (nth_error (data s) (List.length (data s) - 1))
  else None.

(** A bar width that stays within its track: between 0 and 100, or NaN
    (which the style ignores). *)
Definition withinTrack (w : float) : Prop :=
  is_nan w = true \/ ((0 <=? w) = true /\ (w <=? 100) = true).

(** The age groups whose range [minAge .. maxAge] holds the age [a]. *)
Definition ageGroupsOf (a : Z) : list AgeGroup.t :=
  filter (fun g => (AgeGroup.minAge g <=? a)%Z && (a <=? AgeGroup.maxAge g)%Z)
         ageGroups.

(** The distribution with the count [floor(sp / 41)] at each of the ages
    0 to 40. *)
Definition evenDistribution (sp : float) : list PopulationByAge.t :=
  map (fun age => PopulationByAge.mk age (Math_floor (sp / 41)))
      (map Z.of_nat (seq 0 41)).

(** The values the slider of the starting population delivers
    ([min="10" max="1000" step="10"]): 10, 20, ..., 1000. *)
Definition startingPopulationSteps : list float :=
  map (fun k => Z2float (10 * Z.of_nat k)) (seq 1 100).

(** The count [c] of the distribution for the starting population [v]
    satisfies [41 * c <= v < 41 * (c + 1)]. *)
Definition remainderBelow41 (v : float) : bool :=
  let c := Math_floor (v / 41) in
  (c * 41 <=? v) && (v <? (c + 1) * 41).

(** Each entry after the first carries as delta its population minus the
    population of the entry before it. *)
Definition deltasAreDifferences (h : list DataPoint.t) : Prop :=
  forall (i : nat) (a b : DataPoint.t),
    nth_error h i = Some a -> nth_error h (S i) = Some b ->
    DataPoint.delta b = DataPoint.population b - DataPoint.population a.

(** The last entry of the series has the population [p]. *)
Definition endsAt (h : list DataPoint.t) (p : float) : Prop :=
  exists rest e, h = rest ++ [e] /\ DataPoint.population e = p.

(** How the series and the age distribution hang together with the rest
    of the state, in every reachable state. *)
Record seriesShape (s : State) : Prop := {
  shape_first :
    exists rest, data s = DataPoint.mk 0 (startingPopulation s) 0 :: rest;
  shape_last : endsAt (data s) (population s);
  shape_deltas : deltasAreDifferences (data s);
  shape_ages : populationByAge s = evenDistribution (startingPopulation s)
}.

(** The events that leave the series in place: all but a reset click and a
    new starting population. *)
Definition keepsSeries (e : event) : Prop :=
  match e with
  | StartingPopulationChange _ | ResetClick => False
  | _ => True
  end.

(** The events that are not a move of a rate slider. *)
Definition keepsRates (e : event) : Prop :=
  match e with
  | ReplicationChanceChange _ | DeathChanceChange _
  | CrowdingCoefficientChange _ => False
  | _ => True
  end.


(** Not negative, on the reading of a float: a zero, NaN, or a value with
    the sign bit clear. *)
Definition SFnotNegative (x : spec_float) : bool :=
  match x with
  | S754_zero _ | S754_nan => true
  | S754_infinity s | S754_finite s _ _ => negb s
  end.

(** * Further definitions: the sliders' values, overflow and timers *)

(** Not NaN, on the reading of a float. *)
Definition SFnotNaN (x : spec_float) : bool :=
  match x with
  | S754_nan => false
  | _ => true
  end.

(** ** The events the page's inputs deliver *)

(** The values a range input delivers lie between its [min] and [max]:
    10 and 1000 for the starting population, 0 and 0.5 for the replication
    and death chances, 0 and 0.01 for the crowding coefficient.  The
    buttons and the timers carry no value. *)
Definition delivered (e : event) : Prop :=
  match e with
  | StartingPopulationChange v => (10 <=? v) = true /\ (v <=? 1000) = true
  | ReplicationChanceChange v | DeathChanceChange v =>
      (0 <=? v) = true /\ (v <=? 0.5) = true
  | CrowdingCoefficientChange v => (0 <=? v) = true /\ (v <=? 0.01) = true
  | _ => True
  end.

(** The states of the page when every slider move carries a value of the
    slider's range. *)
Inductive reachableOnPage : State -> Prop :=
  | onPage_mount : reachableOnPage mount
  | onPage_handle (e : event) (s : State) :
      reachableOnPage s -> delivered e -> reachableOnPage (handle e s).

(** ** Overflow *)

(** The series [h] has an entry with population [Infinity] before index
    [i]. *)
Definition overflowedBefore (h : list DataPoint.t) (i : nat) : Prop :=
  exists (j : nat) (e : DataPoint.t),
    (j < i)%nat /\ nth_error h j = Some e
    /\ DataPoint.population e = infinity.

(** The population [p], at index [i] of the series [h], is at least 0, or
    it is NaN and the series has overflowed before [i]. *)
Definition populationSound (h : list DataPoint.t) (i : nat) (p : float)
  : Prop :=
  (0 <=? p) = true \/ (is_nan p = true /\ overflowedBefore h i).

(** What the states of the page keep: rates within the slider ranges, and
    sound populations, the current one (taken at the end of the series) and
    every recorded one. *)
Record pageInvariant (s : State) : Prop := {
  page_rates : withinSliders s;
  page_population :
    populationSound (data s) (List.length (data s)) (population s);
  page_series :
    forall (i : nat) (e : DataPoint.t),
      nth_error (data s) i = Some e ->
      populationSound (data s) i (DataPoint.population e)
}.

(** A bar width between 0 and 100. *)
Definition inTrack (w : float) : Prop :=
  (0 <=? w) = true /\ (w <=? 100) = true.

(** ** Timers

    The page starts two kinds of timers: the interval of 500 ms that the
    tick effect installs while [isRunning] holds, and the timeout of
    3000 ms that a Reset click on a running simulation starts to hide its
    warning again.  [Page] adds a clock and the pending timers to the
    hooks; time passes in steps of one millisecond, and a timer runs its
    callback in the millisecond it is due. *)

(** The timeouts a handler starts, as delays in milliseconds:
    [handleResetClick] on a running simulation calls
    [setTimeout(() => setShowResetWarning(false), 3000)]; no other handler
    starts one. *)
Definition timeoutsStarted (e : event) (s : State) : list Z :=
  match e with
  | ResetClick => if isRunning s then [3000%Z] else []
  | _ => []
  end.

(** The dependencies of the tick effect, compared as React compares them
    (with [Object.is]): [isRunning], [time], [population] and the three
    rates. *)
Definition sameDeps (s s' : State) : bool :=
  Bool.eqb (isRunning s) (isRunning s')
  && (time s =? time s')%Z
  && Object_is (population s) (population s')
  && Object_is (replicationChance s) (replicationChance s')
  && Object_is (deathChance s) (deathChance s')
  && Object_is (crowdingCoefficient s) (crowdingCoefficient s').

(** The page with its timers: the hooks, the clock in milliseconds, the
    time at which the interval fires next (none when no interval is
    installed) and the times at which the pending timeouts of the reset
    warning expire, oldest first. *)
Record Page : Type := mkPage {
  hooks : State;
  clock : Z;
  intervalDue : option Z;
  warningTimeouts : list Z
}.

(** The tick effect after a render at time [t] that took the hooks from
    [old] to [new]: with the same dependencies the effect does not run and
    the interval stays as it is ([due]); otherwise the cleanup clears the
    interval and the effect installs a new one of 500 ms when [isRunning]
    holds. *)
Definition tickEffect (t : Z) (old new : State) (due : option Z)
  : option Z :=
  if sameDeps old new then due
  else if isRunning new then Some (t + 500)%Z else None.

(** The page after mounting: no interval (the simulation is paused), no
    timeout. *)
Definition mountPage : Page := mkPage mount 0 None [].

(** An event of the user, at the current time: its handler runs, the tick
    effect follows the render, and the timeouts the handler starts are
    pending from now on. *)
Definition deliver (e : event) (p : Page) : Page :=
  let s' := handle e (hooks p) in
  mkPage s' (clock p)
         (tickEffect (clock p) (hooks p) s' (intervalDue p))
         (warningTimeouts p
            ++ map (fun d => (clock p + d)%Z) (timeoutsStarted e (hooks p))).

(** The timeouts that have expired run their callback,
    [setShowResetWarning(false)]. *)
Definition fireTimeouts (p : Page) : Page :=
  let expired := filter (fun d => (d <=? clock p)%Z) (warningTimeouts p) in
  let pending :=
    filter (fun d => negb (d <=? clock p)%Z) (warningTimeouts p) in
  mkPage (fold_left (fun s _ => handle WarningTimeout s) expired (hooks p))
         (clock p) (intervalDue p) pending.

(** The interval, when it is due, runs its callback; it fires again 500 ms
    later unless the effect replaces or clears it. *)
Definition fireInterval (p : Page) : Page :=
  match intervalDue p with
  | Some d =>
      if (d <=? clock p)%Z then
        let s' := handle IntervalFire (hooks p) in
        mkPage s' (clock p)
               (tickEffect (clock p) (hooks p) s' (Some (d + 500)%Z))
               (warningTimeouts p)
      else p
  | None => p
  end.

(** One millisecond passes.  A timeout and the interval that are due at
    the same time run in the order they were started: the timeout, started
    3000 ms ago, before the interval, started 500 ms ago. *)
Definition millisecond (p : Page) : Page :=
  fireInterval
    (fireTimeouts
       (mkPage (hooks p) (clock p + 1) (intervalDue p) (warningTimeouts p))).

(** [ms] milliseconds pass. *)
Definition elapse (ms : nat) (p : Page) : Page := Nat.iter ms millisecond p.

(** What the user does: a list of waiting times in milliseconds, each
    followed by an event. *)
Definition play (script : list (nat * event)) (p : Page) : Page :=
  fold_left (fun q step => deliver (snd step) (elapse (fst step) q)) script p.

(** The events of a user who leaves the Reset button alone: the sliders,
    Start/Pause and the running flag.  (The interval and the timeout are
    the timers' events.) *)
Definition leavesReset (e : event) : bool :=
  match e with
  | ResetClick | IntervalFire | WarningTimeout => false
  | _ => true
  end.

(** The page [q] with the reset warning showing until [due]: before [due]
    the warning is set and its timeout pending, from [due] on the page is
    [q] itself. *)
Definition withWarningUntil (due : Z) (q : Page) : Page :=
  if (clock q <? due)%Z
  then mkPage (setShowResetWarning true (hooks q)) (clock q)
              (intervalDue q) [due]
  else q.

(** The page [q'] is the page [q] after a Reset click that [q] has not
    seen, with the timeout of that click expiring at [due]; [q] itself
    shows no warning and has no timeout pending. *)
Definition clicked (due : Z) (q q' : Page) : Prop :=
  showResetWarning (hooks q) = false
  /\ warningTimeouts q = []
  /\ q' = withWarningUntil due q.

(** The mounted page, started, 1200 ms later: two ticks have passed. *)
Definition startedPage : Page :=
  elapse 1200 (deliver StartPauseClick mountPage).

(** * Proofs *)

(** ** The [Math] functions on examples *)

(** Ties go up, a negative argument that rounds to zero gives [-0], and
    NaN, infinities and large values come back unchanged. *)
Example Math_round_examples :
  map Math_round
      [0.5; 1.5; 2.5; -0.5; -1.5; -2.5; 0.3; -0.3; 0.49999999999999994;
       4.525; 90.725; 4503599627370495.5; 1e300; infinity; nan]
  = [1; 2; 3; neg_zero; -1; -2; 0; neg_zero; 0;
     5; 91; 4503599627370496; 1e300; infinity; nan].
Proof. vm_compute. reflexivity. Qed.

Example Math_floor_examples :
  map Math_floor [0.5; -0.5; 2.4390243902439024; neg_zero; infinity; nan]
  = [0; -1; 2; neg_zero; infinity; nan].
Proof. vm_compute. reflexivity. Qed.

Example Math_max_examples :
  map (Math_max 0) [3; -3; neg_zero; 0; infinity; neg_infinity; nan]
  = [3; 0; 0; 0; infinity; 0; nan].
Proof. vm_compute. reflexivity. Qed.

(** ** Comparisons with zero *)

(** Settle a goal about comparisons of [x] with constants by the cases of
    its reading: a zero, an infinity, NaN or a finite value, of either
    sign. *)
Ltac by_float_cases x :=
  destruct (Prim2SF x) as [[|]|[|]| |[|] ? ?]; cbn; congruence.

Lemma Prim2SF_zero : Prim2SF 0 = S754_zero false.
Proof. reflexivity. Qed.

Lemma ltb_zero_leb (x : float) : (0 <? x) = true -> (0 <=? x) = true.
Proof.
  rewrite FloatAxioms.ltb_spec, FloatAxioms.leb_spec, Prim2SF_zero.
  by_float_cases x.
Qed.

Lemma eqb_zero_leb (x : float) : (x =? 0) = true -> (x <=? 0) = true.
Proof.
  rewrite FloatAxioms.eqb_spec, FloatAxioms.leb_spec, Prim2SF_zero.
  by_float_cases x.
Qed.

(** [Math.max(0, x)] is never negative, whatever [x] is. *)
Lemma Math_max_zero_notNegative (x : float) : notNegative (Math_max 0 x).
Proof.
  unfold notNegative, Math_max.
  destruct (is_nan 0 || is_nan x) eqn:Hnan; [right; reflexivity|].
  destruct (0 <? x) eqn:Hlt; [left; now apply ltb_zero_leb|].
  destruct (x <? 0); left; reflexivity.
Qed.

(** Two floats that [=?] tells apart are different, unless the first is
    NaN. *)
Lemma float_neq (x y : float) :
  (x =? y) = false -> is_nan x = false -> x <> y.
Proof.
  intros H Hn ->. unfold is_nan in Hn. rewrite H in Hn. discriminate.
Qed.

(** ** Rounding never overflows on small operands

    The lemmas of this module follow the specification of binary64 rounding
    ([SpecFloat]) far enough to show that the difference of two small floats
    is finite. *)
Module SF.
Local Open Scope Z_scope.

(** The number of binary digits, as the library counts it elsewhere. *)
Lemma digits2_pos_size (p : positive) : digits2_pos p = Pos.size p.
Proof. induction p; cbn; congruence. Qed.

Lemma Zdigits2_log2 (p : positive) : Zdigits2 (Zpos p) = Z.log2 (Zpos p~0).
Proof. cbn. now rewrite digits2_pos_size. Qed.

Lemma Zdigits2_nonneg (m : Z) : 0 <= Zdigits2 m.
Proof. destruct m; cbn; lia. Qed.

Lemma Zdigits2_mono (a b : Z) : 0 <= a <= b -> Zdigits2 a <= Zdigits2 b.
Proof.
  intros [Ha Hab]. destruct a as [|p|p]; [apply Zdigits2_nonneg| |lia].
  destruct b as [|q|q]; try lia.
  rewrite !Zdigits2_log2. apply Z.log2_le_mono. lia.
Qed.

Lemma Zdigits2_double (a : Z) : 0 < a -> Zdigits2 (2 * a) = Zdigits2 a + 1.
Proof.
  destruct a as [|p|p]; try lia. intros _.
  change (2 * Z.pos p) with (Z.pos p~0). cbn. lia.
Qed.

Lemma Zdigits2_succ (m : Z) : 0 <= m -> Zdigits2 (m + 1) <= Zdigits2 m + 1.
Proof.
  intros Hm. destruct (Z.eq_dec m 0) as [->|Hne]; [cbn; lia|].
  rewrite <- Zdigits2_double by lia. apply Zdigits2_mono. lia.
Qed.

(** A sum or difference has at most one digit more than its longer
    operand. *)
Lemma Zdigits2_combine (a b : Z) :
  0 < a -> 0 < b ->
  forall c,
    Z.abs c <= a + b -> Zdigits2 c <= Z.max (Zdigits2 a) (Zdigits2 b) + 1.
Proof.
  intros Ha Hb c Hc.
  assert (Habs : Zdigits2 c = Zdigits2 (Z.abs c)).
  { destruct c; cbn; reflexivity. }
  rewrite Habs.
  destruct (Z.le_ge_cases a b).
  - rewrite Z.max_r by (apply Zdigits2_mono; lia).
    rewrite <- Zdigits2_double by lia. apply Zdigits2_mono. lia.
  - rewrite Z.max_l by (apply Zdigits2_mono; lia).
    rewrite <- Zdigits2_double by lia. apply Zdigits2_mono. lia.
Qed.

Lemma digits2_pos_iter_xO (m d : positive) :
  Zpos (digits2_pos (Pos.iter xO m d)) = Zpos (digits2_pos m) + Zpos d.
Proof.
  induction d as [|d IH] using Pos.peano_ind.
  - cbn. lia.
  - rewrite Pos.iter_succ. cbn [digits2_pos]. lia.
Qed.

(** Aligning a mantissa to a smaller exponent keeps digits plus exponent. *)
Lemma shl_align_digits (m : positive) (e e' : Z) :
  Zpos (digits2_pos (fst (shl_align m e e'))) + snd (shl_align m e e')
  = Zpos (digits2_pos m) + e
  /\ snd (shl_align m e e') = Z.min e e'.
Proof.
  unfold shl_align. destruct (e' - e) as [|d|d] eqn:Hd; cbn [fst snd].
  - lia.
  - lia.
  - rewrite digits2_pos_iter_xO. lia.
Qed.

(** A right shift by one bit takes one digit away. *)
Lemma shr_1_digits (mrs : shr_record) :
  0 <= shr_m mrs ->
  0 <= shr_m (shr_1 mrs)
  /\ Zdigits2 (shr_m (shr_1 mrs)) = Z.max 0 (Zdigits2 (shr_m mrs) - 1).
Proof.
  destruct mrs as [m r s]. cbn [shr_m]. intros Hm.
  destruct m as [|[p|p|]|p]; try lia;
    cbn [shr_1 shr_m Zdigits2 digits2_pos]; rewrite ?Pos2Z.inj_succ; lia.
Qed.

Lemma iter_shr_1_digits (p : positive) (mrs : shr_record) :
  0 <= shr_m mrs ->
  0 <= shr_m (iter_pos shr_1 p mrs)
  /\ Zdigits2 (shr_m (iter_pos shr_1 p mrs))
     = Z.max 0 (Zdigits2 (shr_m mrs) - Zpos p).
Proof.
  revert mrs. induction p as [p IH|p IH|]; intros mrs Hm; cbn [iter_pos].
  - destruct (shr_1_digits mrs Hm) as [H1 E1].
    destruct (IH _ H1) as [H2 E2]. destruct (IH _ H2) as [H3 E3].
    split; [exact H3|]. rewrite E3, E2, E1. lia.
  - destruct (IH _ Hm) as [H2 E2]. destruct (IH _ H2) as [H3 E3].
    split; [exact H3|]. rewrite E3, E2. lia.
  - apply shr_1_digits, Hm.
Qed.

Lemma shr_digits (mrs : shr_record) (e n : Z) :
  0 <= shr_m mrs ->
  0 <= shr_m (fst (shr mrs e n))
  /\ snd (shr mrs e n) = Z.max e (e + n)
  /\ Zdigits2 (shr_m (fst (shr mrs e n))) + snd (shr mrs e n)
     <= Z.max (Zdigits2 (shr_m mrs) + e) (snd (shr mrs e n)).
Proof.
  intros Hm. unfold shr. destruct n as [|p|p]; cbn [fst snd]; try lia.
  destruct (iter_shr_1_digits p mrs Hm) as [H E]. rewrite E. lia.
Qed.

Lemma shr_record_of_loc_m (m : Z) (l : location) :
  shr_m (shr_record_of_loc m l) = m.
Proof. destruct l as [|[| |]]; reflexivity. Qed.

(** The exponent after the shift that [fexp] asks for, and a bound on digits
    plus exponent of the shifted mantissa. *)
Lemma shr_fexp_digits (m e : Z) (l : location) :
  0 <= m ->
  0 <= shr_m (fst (shr_fexp prec emax m e l))
  /\ snd (shr_fexp prec emax m e l)
     = Z.max e (fexp prec emax (Zdigits2 m + e))
  /\ Zdigits2 (shr_m (fst (shr_fexp prec emax m e l)))
       + snd (shr_fexp prec emax m e l)
     <= Z.max (Zdigits2 m + e) (snd (shr_fexp prec emax m e l)).
Proof.
  intros Hm. unfold shr_fexp.
  destruct (shr_digits (shr_record_of_loc m l) e
              (fexp prec emax (Zdigits2 m + e) - e)) as (H1 & H2 & H3).
  - now rewrite shr_record_of_loc_m.
  - rewrite shr_record_of_loc_m in H3. repeat split; [exact H1| |exact H3].
    rewrite H2. lia.
Qed.

Lemma round_nearest_even_digits (m : Z) (l : location) :
  0 <= m ->
  0 <= round_nearest_even m l
  /\ Zdigits2 (round_nearest_even m l) <= Zdigits2 m + 1.
Proof.
  intros Hm. pose proof (Zdigits2_succ m Hm).
  unfold round_nearest_even.
  destruct l as [|[| |]]; try destruct (Z.even m); lia.
Qed.

(** Rounding a mantissa whose digits plus exponent stay below 1024 does not
    overflow. *)
Lemma binary_round_aux_finite (s : bool) (m e : Z) (l : location) :
  0 <= m -> Zdigits2 m + e <= 1023 -> e <= 970 ->
  SFfinite (binary_round_aux prec emax s m e l) = true.
Proof.
  intros Hm Hd He. unfold binary_round_aux.
  destruct (shr_fexp_digits m e l Hm) as (H1 & E1 & D1).
  destruct (shr_fexp prec emax m e l) as [mrs' e'] eqn:Hshr1.
  cbn [fst snd] in H1, E1, D1.
  destruct (round_nearest_even_digits (shr_m mrs') (loc_of_shr_record mrs')
              H1) as [H2 D2].
  destruct (shr_fexp_digits _ e' loc_Exact H2) as (H3 & E3 & _).
  destruct (shr_fexp prec emax _ e' loc_Exact) as [mrs'' e''] eqn:Hshr2.
  cbn [fst snd] in H3, E3.
  destruct (shr_m mrs'') as [|q|q]; [reflexivity| |lia].
  assert (Hle : e'' <= 971).
  { rewrite E3, E1 in *. unfold fexp, SpecFloat.emin, prec, emax in *. lia. }
  assert (Hb : (e'' <=? emax - prec) = true) by (apply Z.leb_le; exact Hle).
  now rewrite Hb.
Qed.

Lemma binary_normalize_finite (m e : Z) :
  Zdigits2 m + e <= 1023 ->
  SFfinite (binary_normalize prec emax m e false) = true.
Proof.
  intros Hd. unfold binary_normalize.
  assert (Hround : forall s p, Zpos (digits2_pos p) + e <= 1023 ->
            SFfinite (binary_round prec emax s p e) = true).
  { intros s p Hp. unfold binary_round.
    destruct (shl_align_digits p e
                (fexp prec emax (Zpos (digits2_pos p) + e))) as [Hdig Hexp].
    destruct (shl_align p e _) as [mz ez]. cbn [fst snd] in Hdig, Hexp.
    apply binary_round_aux_finite; [lia | cbn [Zdigits2]; lia |].
    rewrite Hexp. unfold fexp, SpecFloat.emin, prec, emax. lia. }
  destruct m as [|p|p]; [reflexivity | |]; apply Hround; exact Hd.
Qed.

Lemma cond_Zopp_abs (s : bool) (m : Z) : Z.abs (cond_Zopp s m) = Z.abs m.
Proof. destruct s; cbn; lia. Qed.

(** The difference of two small floats is zero or finite. *)
Lemma SFsub_finite (x y : spec_float) :
  SFsmall x -> SFsmall y -> SFfinite (SFsub prec emax x y) = true.
Proof.
  destruct x as [sx|sx| |sx mx ex], y as [sy|sy| |sy my ey];
    cbn [SFsmall]; try contradiction; intros Hx Hy.
  - destruct sx, sy; reflexivity.
  - reflexivity.
  - reflexivity.
  - cbn [SFsub]. apply binary_normalize_finite.
    destruct (shl_align_digits mx ex (Z.min ex ey)) as [Dx Ex].
    destruct (shl_align_digits my ey (Z.min ex ey)) as [Dy Ey].
    destruct (shl_align mx ex (Z.min ex ey)) as [mx' ex'].
    destruct (shl_align my ey (Z.min ex ey)) as [my' ey'].
    cbn [fst snd] in *.
    pose proof (Zdigits2_combine (Zpos mx') (Zpos my') eq_refl eq_refl
                  (cond_Zopp sx (Zpos mx') - cond_Zopp sy (Zpos my'))) as H.
    change (Zdigits2 (Z.pos mx')) with (Z.pos (digits2_pos mx')) in H.
    change (Zdigits2 (Z.pos my')) with (Z.pos (digits2_pos my')) in H.
    assert (Habs : Z.abs (cond_Zopp sx (Z.pos mx') - cond_Zopp sy (Z.pos my'))
                   <= Z.pos mx' + Z.pos my').
    { pose proof (cond_Zopp_abs sx (Zpos mx')).
      pose proof (cond_Zopp_abs sy (Zpos my')). lia. }
    specialize (H Habs).
    change (IntDef.Z.min ex ey) with (Z.min ex ey). lia.
Qed.

Lemma SFsub_zero_r (x : spec_float) (s : bool) :
  SFfinite x = true -> SFfinite (SFsub prec emax x (S754_zero s)) = true.
Proof.
  destruct x as [sx|sx| |sx mx ex]; try discriminate; now destruct sx, s.
Qed.

(** A finite float times a zero is a zero. *)
Lemma SFmul_zero_r (x : spec_float) (s : bool) :
  SFfinite x = true ->
  exists s', SFmul prec emax x (S754_zero s) = S754_zero s'.
Proof. destruct x as [sx|sx| |sx mx ex]; try discriminate; now eexists. Qed.

(** A binary64 mantissa has at most 53 digits. *)
Lemma valid_digits (s : bool) (m : positive) (e : Z) :
  valid_binary (S754_finite s m e) = true -> Zpos (digits2_pos m) <= 53.
Proof.
  cbn. unfold bounded, canonical_mantissa, fexp, SpecFloat.emin, prec, emax.
  intros H. apply andb_prop in H as [H _]. apply Z.eqb_eq in H. lia.
Qed.
End SF.

(** ** Floats within the slider ranges, and zero *)

Lemma Prim2SF_half : Prim2SF 0.5 = S754_finite false 4503599627370496 (-53).
Proof. reflexivity. Qed.

(** A float between 0 and a float that is not NaN or infinite is finite. *)
Lemma between_finite (x b : float) :
  SFfinite (Prim2SF b) = true ->
  (0 <=? x) = true -> (x <=? b) = true -> SFfinite (Prim2SF x) = true.
Proof.
  rewrite !FloatAxioms.leb_spec, Prim2SF_zero.
  destruct (Prim2SF b) as [sb|sb| |sb mb eb]; try discriminate; intros _;
    by_float_cases x.
Qed.

(** A float between 0 and 0.5 is small: its exponent is at most that of
    0.5, and its mantissa has at most 53 digits. *)
Lemma between_half_small (x : float) :
  (0 <=? x) = true -> (x <=? 0.5) = true -> SFsmall (Prim2SF x).
Proof.
  rewrite !FloatAxioms.leb_spec, Prim2SF_half, Prim2SF_zero.
  pose proof (Prim2SF_valid x) as Hv.
  destruct (Prim2SF x) as [s|s| |s m e]; try destruct s;
    unfold SFleb, SFcompare; try congruence; try (intros; exact I).
  intros _. pose proof (SF.valid_digits _ _ _ Hv) as Hd.
  destruct (Z.compare e (-53)) eqn:He; try discriminate; intros _.
  - apply Z.compare_eq_iff in He. unfold SFsmall. lia.
  - assert (e < -53)%Z by exact He. unfold SFsmall. lia.
Qed.

(** The floats that read as a zero are [0] and [-0]. *)
Lemma Prim2SF_zero_cases (x : float) (s : bool) :
  Prim2SF x = S754_zero s -> x = 0 \/ x = neg_zero.
Proof.
  intros H. rewrite <- (SF2Prim_Prim2SF x), H. destruct s; cbn; auto.
Qed.

Lemma eqb_zero_cases (x : float) : (x =? 0) = true -> x = 0 \/ x = neg_zero.
Proof.
  rewrite FloatAxioms.eqb_spec, Prim2SF_zero.
  destruct (Prim2SF x) as [s|s| |s m e] eqn:Hx; try destruct s; cbn;
    try discriminate; intros _; eapply Prim2SF_zero_cases; eassumption.
Qed.

(** A finite float times a zero is a zero. *)
Lemma mul_zero (g p : float) :
  SFfinite (Prim2SF g) = true -> p = 0 \/ p = neg_zero ->
  g * p = 0 \/ g * p = neg_zero.
Proof.
  intros Hg Hp.
  assert (exists s, Prim2SF p = S754_zero s) as [s Hs]
    by (destruct Hp as [->| ->]; now eexists).
  destruct (SF.SFmul_zero_r (Prim2SF g) s Hg) as [s' Hs'].
  apply (Prim2SF_zero_cases _ s').
  now rewrite mul_spec, Hs.
Qed.

(** At population zero the growth rate [r - d - c * 0] is finite for all
    rates within the slider ranges. *)
Lemma growthRate_finite (s : State) :
  withinSliders s -> population s = 0 \/ population s = neg_zero ->
  SFfinite (Prim2SF (growthRate s)) = true.
Proof.
  intros (Hr0 & Hr1 & Hd0 & Hd1 & Hc0 & Hc1) Hp. unfold growthRate.
  assert (Hc : SFfinite (Prim2SF (crowdingCoefficient s)) = true)
    by (now apply (between_finite _ 0.01)).
  destruct (mul_zero _ _ Hc Hp) as [Hz|Hz]; rewrite Hz, sub_spec;
    apply SF.SFsub_zero_r; rewrite sub_spec;
    apply SF.SFsub_finite; now apply between_half_small.
Qed.

(** One tick at population zero: the new population is [0] and so is the
    delta. *)
Lemma zero_is_fixed (s : State) :
  withinSliders s -> (population s =? 0) = true ->
  newPopulation s = 0 /\ tickDelta s = 0.
Proof.
  intros Hs Hp. apply eqb_zero_cases in Hp.
  pose proof (growthRate_finite s Hs Hp) as Hg.
  pose proof (mul_zero _ _ Hg Hp) as Hc.
  unfold tickDelta, newPopulation, populationChange.
  destruct Hp as [Hp|Hp]; rewrite Hp in *;
    destruct Hc as [Hc|Hc]; rewrite Hc; split; vm_compute; reflexivity.
Qed.

(** ** The tick *)

Lemma advanceTick_inactive (s : State) :
  isRunning s = false -> advanceTick s = s.
Proof. unfold advanceTick. now intros ->. Qed.

Lemma advanceTicks_inactive (n : nat) (s : State) :
  isRunning s = false -> advanceTicks n s = s.
Proof.
  intros H. induction n as [|n IH]; cbn; [reflexivity|].
  now rewrite advanceTick_inactive.
Qed.

Lemma advanceTicks_add (n m : nat) (s : State) :
  advanceTicks (n + m) s = advanceTicks m (advanceTicks n s).
Proof.
  revert s. induction n as [|n IH]; intros s; cbn; [reflexivity|apply IH].
Qed.

Lemma intervalCallback_fields (s : State) :
  population (intervalCallback s) = newPopulation s
  /\ time (intervalCallback s) = newTime s
  /\ data (intervalCallback s)
     = data s ++ [DataPoint.mk (newTime s) (newPopulation s) (tickDelta s)]
  /\ isRunning (intervalCallback s)
     = (if newPopulation s <=? 0 then false else isRunning s)
  /\ startingPopulation (intervalCallback s) = startingPopulation s
  /\ replicationChance (intervalCallback s) = replicationChance s
  /\ deathChance (intervalCallback s) = deathChance s
  /\ crowdingCoefficient (intervalCallback s) = crowdingCoefficient s.
Proof.
  unfold intervalCallback.
  destruct (newPopulation s <=? 0); cbn; repeat split; reflexivity.
Qed.

Lemma newPopulation_logisticStep (s : State) :
  newPopulation s
  = logisticStep (replicationChance s) (deathChance s)
                 (crowdingCoefficient s) (population s).
Proof. reflexivity. Qed.

(** C1: for an active state, one [advanceTick] sets the population to
    [max(0, round(P + (r - d - c*P) * P))] for the population [P] before the
    tick, adds exactly 1 to the tick counter, and appends to the series the
    entry made of the new tick number, the new population and the delta,
    where the delta is the new (rounded and clamped) population minus
    [P]. *)
Theorem advanceTick_active (s : State) :
  isRunning s = true ->
  population (advanceTick s)
  = logisticStep (replicationChance s) (deathChance s)
                 (crowdingCoefficient s) (population s)
  /\ time (advanceTick s) = (time s + 1)%Z
  /\ data (advanceTick s)
     = data s
         ++ [DataPoint.mk (time s + 1)%Z (population (advanceTick s))
                          (population (advanceTick s) - population s)].
Proof.
  intros Hrun. unfold advanceTick. rewrite Hrun.
  destruct (intervalCallback_fields s) as (Hp & Ht & Hd & _).
  rewrite Hp, Ht, Hd. repeat split.
Qed.

Lemma advanceTick_active_witness :
  isRunning seed = true
  /\ population (advanceTick seed) = logisticStep 0.1 0.05 0.001 100
  /\ time (advanceTick seed) = 1%Z
  /\ data (advanceTick seed)
     = data seed
         ++ [DataPoint.mk 1 (population (advanceTick seed))
                          (population (advanceTick seed) - 100)].
Proof.
  split; [reflexivity | apply (advanceTick_active seed); reflexivity].
Defined.

(** C3, as the code has it: with the default parameters the first tick from
    the seed state gives population 95 with delta -5, and the second tick,
    from 95, gives population 91 with delta -4. *)
Theorem scenarioA_two_ticks :
  population (advanceTick seed) = 95
  /\ population (advanceTick (advanceTick seed)) = 91
  /\ data (advanceTick (advanceTick seed))
     = [ DataPoint.mk 0 100 0; DataPoint.mk 1 95 (-5);
         DataPoint.mk 2 91 (-4) ].
Proof. vm_compute. repeat split. Qed.

(** C3 as stated fails: the first tick does not give population 104 with
    delta 4, and a tick from population 104 does not stay at 104. *)
Lemma scenarioA_not_104 :
  ~ (population (advanceTick seed) = 104 /\ tickDelta seed = 4
     /\ population (advanceTick (setPopulation 104 seed)) = 104
     /\ tickDelta (setPopulation 104 seed) = 0).
Proof.
  intros [H _].
  apply (float_neq (population (advanceTick seed)) 104); [| |exact H];
    vm_compute; reflexivity.
Qed.

(** A tick from population 104 gives 98, with delta -6. *)
Example scenarioA_from_104 :
  population (advanceTick (setPopulation 104 seed)) = 98
  /\ tickDelta (setPopulation 104 seed) = -6.
Proof. vm_compute. split; reflexivity. Qed.

(** ** Carrying capacity *)

(** C4: whatever the rest of the state, [calculateCarryingCapacity] returns
    0 when [replicationChance <= deathChance], for any crowding coefficient,
    and else [round((replicationChance - deathChance) /
    crowdingCoefficient)]; it reads the three rates only and returns a
    number, so it changes nothing. *)
Theorem carryingCapacity_rule
    (sp r d c p : float) (t : Z) (h : list DataPoint.t) (running : bool)
    (byAge : list PopulationByAge.t) (warning : bool) :
  calculateCarryingCapacity (mkState sp r d c p t h running byAge warning)
  = if r <=? d then 0 else Math_round ((r - d) / c).
Proof. reflexivity. Qed.

(** Scenario B, and the crowding slider at its minimum 0. *)
Example carryingCapacity_examples :
  calculateCarryingCapacity mount = 50
  /\ calculateCarryingCapacity (setCrowdingCoefficient 0 mount) = infinity.
Proof. vm_compute. split; reflexivity. Qed.

(** ** Extinction and reset *)

(** C6: when an [advanceTick] produces population 0, the running flag is
    false after that same call, and any number of further [advanceTick]
    calls leave the whole state, and so population, tick and series, as it
    is; so does an [advanceTick] in any state that is not running. *)
Theorem extinction_pauses (s : State) :
  (population (advanceTick s) =? 0) = true ->
  isRunning (advanceTick s) = false
  /\ (forall n : nat, advanceTicks n (advanceTick s) = advanceTick s)
  /\ (forall s' : State, isRunning s' = false -> advanceTick s' = s').
Proof.
  intros Hzero.
  assert (Hoff : isRunning (advanceTick s) = false).
  { revert Hzero. unfold advanceTick.
    destruct (isRunning s) eqn:Hrun; [|intros _; exact Hrun].
    destruct (intervalCallback_fields s) as (Hp & _ & _ & Hr & _).
    rewrite Hp, Hr. intros Hzero. now rewrite (eqb_zero_leb _ Hzero). }
  split; [exact Hoff|]. split.
  - intros n. now apply advanceTicks_inactive.
  - exact advanceTick_inactive.
Qed.

Lemma extinction_pauses_witness :
  (population (advanceTick (advanceTicks 3 dyingOut)) =? 0) = true
  /\ isRunning (advanceTick (advanceTicks 3 dyingOut)) = false
  /\ (forall n : nat,
        advanceTicks n (advanceTick (advanceTicks 3 dyingOut))
        = advanceTick (advanceTicks 3 dyingOut))
  /\ (forall s' : State, isRunning s' = false -> advanceTick s' = s').
Proof.
  split; [vm_compute; reflexivity|].
  apply (extinction_pauses (advanceTicks 3 dyingOut)). vm_compute. reflexivity.
Defined.

(** The populations of [dyingOut]: 10, 4, 2, 1, 0. *)
Example dyingOut_populations :
  map (fun n => population (advanceTicks n dyingOut)) (seq 0 5)
  = [10; 4; 2; 1; 0].
Proof. vm_compute. reflexivity. Qed.

(** C7: while the simulation runs, [handleResetClick] leaves tick,
    population and series unchanged, keeps the simulation running and
    raises the warning instead of resetting. *)
Theorem reset_rejected_while_running (s : State) :
  isRunning s = true ->
  time (handleResetClick s) = time s
  /\ population (handleResetClick s) = population s
  /\ data (handleResetClick s) = data s
  /\ isRunning (handleResetClick s) = true
  /\ showResetWarning (handleResetClick s) = true.
Proof.
  intros Hrun. unfold handleResetClick. rewrite Hrun. cbn. now repeat split.
Qed.

Lemma reset_rejected_while_running_witness :
  isRunning seed = true
  /\ time (handleResetClick seed) = time seed
  /\ population (handleResetClick seed) = population seed
  /\ data (handleResetClick seed) = data seed
  /\ isRunning (handleResetClick seed) = true
  /\ showResetWarning (handleResetClick seed) = true.
Proof.
  split; [reflexivity | apply (reset_rejected_while_running seed); reflexivity].
Defined.

(** C8: in a paused state a second reset gives the very state the first one
    gave, and that state has tick 0, population [startingPopulation] and the
    one-entry series [{0, startingPopulation, 0}]. *)
Theorem reset_idempotent (s : State) :
  isRunning s = false ->
  handleResetClick (handleResetClick s) = handleResetClick s
  /\ time (handleResetClick s) = 0%Z
  /\ population (handleResetClick s) = startingPopulation s
  /\ data (handleResetClick s)
     = [DataPoint.mk 0 (startingPopulation s) 0].
Proof.
  intros Hrun. unfold handleResetClick. rewrite Hrun. cbn.
  repeat split.
Qed.

Lemma reset_idempotent_witness :
  isRunning mount = false
  /\ handleResetClick (handleResetClick mount) = handleResetClick mount
  /\ time (handleResetClick mount) = 0%Z
  /\ population (handleResetClick mount) = startingPopulation mount
  /\ data (handleResetClick mount)
     = [DataPoint.mk 0 (startingPopulation mount) 0].
Proof.
  split; [reflexivity | apply (reset_idempotent mount); reflexivity].
Defined.

(** ** Invariants of the reachable states *)

Lemma ticksAreIndices_snoc (h : list DataPoint.t) (e : DataPoint.t) :
  ticksAreIndices h ->
  DataPoint.time e = Z.of_nat (List.length h) ->
  ticksAreIndices (h ++ [e]).
Proof.
  intros Hh He i x Hi.
  destruct (Nat.lt_ge_cases i (List.length h)) as [Hlt|Hge].
  - rewrite nth_error_app1 in Hi by exact Hlt. now apply Hh.
  - rewrite nth_error_app2 in Hi by exact Hge.
    destruct (i - List.length h)%nat as [|k] eqn:Hk; cbn in Hi.
    + injection Hi as <-. rewrite He. f_equal. lia.
    + now destruct k.
Qed.

Lemma seededSeries_snoc (h : list DataPoint.t) (e : DataPoint.t) :
  seededSeries h -> seededSeries (h ++ [e]).
Proof.
  intros (x & rest & -> & Hx). now exists x, (rest ++ [e]).
Qed.

Lemma invariant_resetSimulation (s : State) :
  (0 <=? startingPopulation s) = true -> invariant (resetSimulation s).
Proof.
  intros Hsp. split; cbn.
  - reflexivity.
  - intros [|[|i]] e Hi; cbn in Hi; try discriminate.
    now injection Hi as <-.
  - now eexists _, _.
  - exact Hsp.
  - left. exact Hsp.
  - constructor; [left; exact Hsp | constructor].
Qed.

Lemma invariant_intervalCallback (s : State) :
  invariant s -> invariant (intervalCallback s).
Proof.
  intros [Hlen Hticks Hseed Hsp Hpop Hser].
  destruct (intervalCallback_fields s)
    as (Hp & Ht & Hd & _ & Hs & _).
  assert (Hnew : notNegative (newPopulation s))
    by apply Math_max_zero_notNegative.
  split; rewrite ?Hp, ?Ht, ?Hd, ?Hs.
  - rewrite length_app. cbn. unfold newTime. lia.
  - apply ticksAreIndices_snoc; [exact Hticks|]. cbn. unfold newTime. lia.
  - now apply seededSeries_snoc.
  - exact Hsp.
  - exact Hnew.
  - apply Forall_app. split; [exact Hser|].
    constructor; [exact Hnew | constructor].
Qed.

Lemma invariant_handle (e : event) (s : State) :
  invariant s -> accepted e -> invariant (handle e s).
Proof.
  intros Hinv Hacc.
  destruct e as [v|v|v|v| |b| | | ]; cbn [handle].
  - unfold handleStartingPopulationChange.
    destruct (Object_is v (startingPopulation s)); [exact Hinv|].
    apply invariant_resetSimulation. exact Hacc.
  - destruct Hinv. now split.
  - destruct Hinv. now split.
  - destruct Hinv. now split.
  - destruct Hinv. now split.
  - destruct Hinv. now split.
  - unfold handleResetClick. destruct (isRunning s).
    + destruct Hinv. now split.
    + apply invariant_resetSimulation. now destruct Hinv.
  - unfold advanceTick. destruct (isRunning s); [|exact Hinv].
    now apply invariant_intervalCallback.
  - destruct Hinv. now split.
Qed.

Lemma reachable_invariant (s : State) : reachable s -> invariant s.
Proof.
  induction 1 as [|e s _ IH Hacc].
  - now apply invariant_resetSimulation.
  - now apply invariant_handle.
Qed.

Lemma reachable_run (es : list event) (s : State) :
  reachable s -> Forall accepted es -> reachable (run es s).
Proof.
  revert s. induction es as [|e es IH]; intros s Hs Hes; cbn; [exact Hs|].
  inversion Hes as [|? ? He Hrest]; subst.
  apply IH; [|exact Hrest]. now constructor.
Qed.

Lemma accepted_unboundedGrowth (n : nat) :
  Forall accepted (unboundedGrowth n).
Proof.
  unfold unboundedGrowth. apply Forall_app. split.
  - repeat constructor.
  - apply Forall_forall. intros e He. apply repeat_spec in He. now subst.
Qed.

Lemma reachable_first_tick : reachable (advanceTick seed).
Proof.
  apply (reachable_handle IntervalFire); [|exact I].
  apply (reachable_handle StartPauseClick); constructor.
Qed.

(** Whatever values the setters are given, also ones no slider delivers
    (a rate of NaN, say): the series is not empty, entry [i] carries tick
    [i], no population is below 0 (each is at least 0, or NaN), and the
    first entry has delta 0. *)
Theorem series_invariant (s : State) :
  reachable s ->
  data s <> []
  /\ ticksAreIndices (data s)
  /\ notNegative (population s)
  /\ Forall (fun e => notNegative (DataPoint.population e)) (data s)
  /\ seededSeries (data s).
Proof.
  intros Hs.
  destruct (reachable_invariant s Hs) as [_ Ht (e & r & Hd & He) _ Hp Hh].
  repeat split; try assumption.
  - rewrite Hd. discriminate.
  - now exists e, r.
Qed.

Lemma series_invariant_witness :
  reachable (advanceTick seed)
  /\ data (advanceTick seed) <> []
  /\ ticksAreIndices (data (advanceTick seed))
  /\ notNegative (population (advanceTick seed))
  /\ Forall (fun e => notNegative (DataPoint.population e))
            (data (advanceTick seed))
  /\ seededSeries (data (advanceTick seed)).
Proof.
  split; [exact reachable_first_tick|].
  apply (series_invariant (advanceTick seed)). exact reachable_first_tick.
Defined.

(** C5 as stated fails: with replication 0.5, death 0 and crowding 0 the
    population grows by half every tick, overflows to infinity, and the
    tick after that makes it NaN ([0 * Infinity]), which is not [>= 0]. *)
Lemma population_overflows_to_NaN :
  ~ (forall s : State,
       reachable s ->
       data s <> []
       /\ ticksAreIndices (data s)
       /\ (0 <=? population s) = true
       /\ Forall (fun e => (0 <=? DataPoint.population e) = true) (data s)
       /\ seededSeries (data s)).
Proof.
  intros H.
  destruct (H (run (unboundedGrowth 1741) mount)) as (_ & _ & Hpop & _).
  - apply reachable_run; [constructor | apply accepted_unboundedGrowth].
  - vm_compute in Hpop. discriminate.
Qed.

(** The overflow: infinity at tick 1740, NaN at tick 1741. *)
Example unboundedGrowth_overflow :
  population (run (unboundedGrowth 1739) mount) = 1.6749195040264794e+308
  /\ population (run (unboundedGrowth 1740) mount) = infinity
  /\ population (run (unboundedGrowth 1741) mount) = nan.
Proof. vm_compute. repeat split. Qed.

(** C10: in every reachable state the series has one entry more than the
    tick counter says. *)
Theorem series_length_tracks_time (s : State) :
  reachable s -> Z.of_nat (List.length (data s)) = (time s + 1)%Z.
Proof. intros Hs. now destruct (reachable_invariant s Hs). Qed.

Lemma series_length_tracks_time_witness :
  reachable (advanceTick seed)
  /\ Z.of_nat (List.length (data (advanceTick seed)))
     = (time (advanceTick seed) + 1)%Z.
Proof.
  split; [exact reachable_first_tick|].
  apply (series_length_tracks_time (advanceTick seed)).
  exact reachable_first_tick.
Defined.

(** ** Scenario C *)

Lemma trapped_tick (r d c : float) (trace : list float) (s : State) :
  closedUnderTick r d c trace ->
  sameRates r d c s -> isRunning s = true -> In (population s) trace ->
  sameRates r d c (advanceTick s)
  /\ isRunning (advanceTick s) = true
  /\ In (population (advanceTick s)) trace.
Proof.
  intros Hclosed (Hr & Hd & Hc) Hrun Hin.
  destruct (Hclosed _ Hin) as [Hnext Hpos].
  unfold advanceTick. rewrite Hrun.
  destruct (intervalCallback_fields s)
    as (Hp & _ & _ & Hi & _ & Hr' & Hd' & Hc').
  rewrite Hp, Hi, newPopulation_logisticStep, Hr, Hd, Hc, Hpos.
  unfold sameRates. rewrite Hr', Hd', Hc'. auto.
Qed.

Lemma trapped_ticks
    (r d c : float) (trace : list float) (n : nat) (s : State) :
  closedUnderTick r d c trace ->
  sameRates r d c s -> isRunning s = true -> In (population s) trace ->
  isRunning (advanceTicks n s) = true
  /\ In (population (advanceTicks n s)) trace.
Proof.
  intros Hclosed. revert s.
  induction n as [|n IH]; intros s Hrates Hrun Hin; cbn; [auto|].
  destruct (trapped_tick r d c trace s Hclosed Hrates Hrun Hin)
    as (Hrates' & Hrun' & Hin').
  now apply IH.
Qed.

Lemma declineC_closed : closedUnderTick 0.01 0.1 0.001 declineC.
Proof.
  intros p Hin. unfold declineC in Hin. cbn [In] in Hin.
  repeat (destruct Hin as [<-|Hin];
          [vm_compute; split; [tauto | reflexivity]|]).
  contradiction.
Qed.

Lemma declineC_at_least_5 (p : float) :
  In p declineC -> (5 <=? p) = true /\ (p =? 0) = false.
Proof.
  intros Hin. unfold declineC in Hin. cbn [In] in Hin.
  repeat (destruct Hin as [<-|Hin]; [split; reflexivity|]). contradiction.
Qed.

Lemma five_closed : closedUnderTick 0.01 0.1 0.001 [5].
Proof.
  intros p [<-|[]]. vm_compute. split; [tauto | reflexivity].
Qed.

(** In scenario C the carrying capacity is 0 for every crowding
    coefficient. *)
Lemma carryingCapacity_scenarioC (c : float) :
  calculateCarryingCapacity (scenarioC c) = 0.
Proof. reflexivity. Qed.

(** C2 at the crowding coefficient 0.001: the carrying capacity is 0, but
    the population never reaches 0.  After any number of ticks the
    simulation still runs and the population is at least 5, so not 0; from
    tick 19 on it is 5, where [round(5 + (0.01 - 0.1 - 0.005) * 5) =
    round(4.525)] is 5 again. *)
Theorem scenarioC_never_dies_out :
  calculateCarryingCapacity (scenarioC 0.001) = 0
  /\ forall n : nat,
       isRunning (advanceTicks n (scenarioC 0.001)) = true
       /\ (5 <=? population (advanceTicks n (scenarioC 0.001))) = true
       /\ (population (advanceTicks n (scenarioC 0.001)) =? 0) = false
       /\ population (advanceTicks (19 + n) (scenarioC 0.001)) = 5.
Proof.
  split; [reflexivity|]. intros n.
  destruct (trapped_ticks 0.01 0.1 0.001 declineC n (scenarioC 0.001)
              declineC_closed) as [Hrun Hin];
    [repeat split | reflexivity | vm_compute; tauto |].
  destruct (declineC_at_least_5 _ Hin) as [Hfive Hnonzero].
  repeat split; [exact Hrun | exact Hfive | exact Hnonzero |].
  rewrite advanceTicks_add.
  destruct (trapped_ticks 0.01 0.1 0.001 [5] n
              (advanceTicks 19 (scenarioC 0.001)) five_closed)
    as [_ [H|[]]]; [repeat split | reflexivity | vm_compute; tauto |].
  now symmetry.
Qed.

(** The same at the largest crowding coefficient of the slider, 0.01: the
    population stays at 3 or above and the simulation keeps running. *)
Example scenarioC_max_crowding (n : nat) :
  isRunning (advanceTicks n (scenarioC 0.01)) = true
  /\ (3 <=? population (advanceTicks n (scenarioC 0.01))) = true.
Proof.
  assert (Hclosed : closedUnderTick 0.01 0.1 0.01 declineC_max).
  { intros p Hin. unfold declineC_max in Hin. cbn [In] in Hin.
    repeat (destruct Hin as [<-|Hin];
            [vm_compute; split; [tauto | reflexivity]|]).
    contradiction. }
  destruct (trapped_ticks 0.01 0.1 0.01 declineC_max n (scenarioC 0.01)
              Hclosed) as [Hrun Hin];
    [repeat split | reflexivity | vm_compute; tauto |].
  split; [exact Hrun|].
  unfold declineC_max in Hin. cbn [In] in Hin.
  repeat (destruct Hin as [<-|Hin]; [reflexivity|]). contradiction.
Qed.

(** ** Population zero *)

Lemma extinctSince_refl (s : State) :
  withinSliders s -> (population s =? 0) = true -> extinctSince s s.
Proof.
  intros Hs Hp. repeat split; try assumption; try apply Hs.
  exists []. now rewrite app_nil_r.
Qed.

Lemma extinctSince_handle (e : event) (s : State) :
  tickAdvancement e ->
  withinSliders s -> (population s =? 0) = true ->
  extinctSince s (handle e s).
Proof.
  intros He Hs Hp. pose proof Hs as (Hr0 & Hr1 & Hd0 & Hd1 & Hc0 & Hc1).
  assert (Hsame : forall s', replicationChance s' = replicationChance s ->
            deathChance s' = deathChance s ->
            crowdingCoefficient s' = crowdingCoefficient s ->
            withinSliders s').
  { intros s' Er Ed Ec. unfold withinSliders. now rewrite Er, Ed, Ec. }
  destruct e as [v|v|v|v| |b| | | ]; cbn [handle tickAdvancement] in *;
    try contradiction;
    try (split; [|split; [exact Hp | exists []; now rewrite app_nil_r]]).
  - destruct He. now repeat split.
  - destruct He. now repeat split.
  - destruct He. now repeat split.
  - now apply Hsame.
  - now apply Hsame.
  - unfold advanceTick. destruct (isRunning s); [|now apply extinctSince_refl].
    destruct (zero_is_fixed s Hs Hp) as [Hnew Hdelta].
    destruct (intervalCallback_fields s)
      as (Ep & _ & Ed & _ & _ & Er & Edc & Ec).
    split; [now apply Hsame|]. rewrite Ep, Ed, Hnew, Hdelta.
    split; [reflexivity|]. eexists. split; [reflexivity|].
    now repeat constructor.
  - now apply Hsame.
Qed.

(** C9: population 0 is a fixed point of the tick for every setting of the
    rate sliders.  From a state with population 0, after any sequence of
    ticks, starts, pauses and rate changes, the population is still 0, the
    next tick computes new population 0 and delta 0, and the series has
    gained only entries with population 0 and delta 0. *)
Theorem zero_is_absorbing (es : list event) (s : State) :
  Forall tickAdvancement es ->
  withinSliders s -> (population s =? 0) = true ->
  newPopulation (run es s) = 0
  /\ tickDelta (run es s) = 0
  /\ (population (run es s) =? 0) = true
  /\ exists added,
       data (run es s) = data s ++ added /\ Forall extinctEntry added.
Proof.
  intros Hes Hs Hp.
  assert (H : extinctSince s (run es s)).
  { revert s Hs Hp. induction Hes as [|e es He _ IH]; intros s Hs Hp.
    - now apply extinctSince_refl.
    - cbn [run fold_left].
      destruct (extinctSince_handle e s He Hs Hp)
        as (Hs1 & Hp1 & added1 & Ed1 & Ha1).
      destruct (IH _ Hs1 Hp1) as (Hs2 & Hp2 & added2 & Ed2 & Ha2).
      repeat split; try assumption; try apply Hs2.
      exists (added1 ++ added2). split.
      + unfold run in Ed2. rewrite Ed2, Ed1. now rewrite app_assoc.
      + apply Forall_app. now split. }
  destruct H as (Hs' & Hp' & Hadded).
  destruct (zero_is_fixed _ Hs' Hp') as [Hnew Hdelta]. auto.
Qed.

Lemma zero_is_absorbing_witness :
  Forall tickAdvancement
         [StartPauseClick; IntervalFire; SetActive true; IntervalFire]
  /\ withinSliders extinct
  /\ (population extinct =? 0) = true
  /\ newPopulation
       (run [StartPauseClick; IntervalFire; SetActive true; IntervalFire]
            extinct) = 0
  /\ tickDelta
       (run [StartPauseClick; IntervalFire; SetActive true; IntervalFire]
            extinct) = 0
  /\ (population
        (run [StartPauseClick; IntervalFire; SetActive true; IntervalFire]
             extinct) =? 0) = true
  /\ exists added,
       data (run [StartPauseClick; IntervalFire; SetActive true; IntervalFire]
                 extinct)
       = data extinct ++ added
       /\ Forall extinctEntry added.
Proof.
  assert (He : Forall tickAdvancement
                 [StartPauseClick; IntervalFire; SetActive true; IntervalFire])
    by (repeat constructor).
  assert (Hs : withinSliders extinct) by (vm_compute; repeat split).
  assert (Hp : (population extinct =? 0) = true) by (vm_compute; reflexivity).
  split; [exact He|]. split; [exact Hs|]. split; [exact Hp|].
  apply (zero_is_absorbing _ extinct He Hs Hp).
Defined.

(** Two ticks after extinction, each after a restart, append the entries
    of ticks 5 and 6 with population 0 and delta 0. *)
Example reactivated_ticks :
  data (run [StartPauseClick; IntervalFire; SetActive true; IntervalFire]
            extinct)
  = data extinct ++ [DataPoint.mk 5 0 0; DataPoint.mk 6 0 0].
Proof. vm_compute. reflexivity. Qed.

(** * Further properties of the page *)

(** ** When the tick pauses the simulation *)

(** A result of [Math.max(0, x)] that is [<= 0] is [0] itself. *)
Lemma Math_max_zero_leb (x : float) :
  (Math_max 0 x <=? 0) = true -> Math_max 0 x = 0.
Proof.
  unfold Math_max.
  destruct (is_nan 0 || is_nan x); [intros H; vm_compute in H; discriminate|].
  destruct (0 <? x) eqn:Hlt.
  - revert Hlt.
    rewrite FloatAxioms.ltb_spec, FloatAxioms.leb_spec, Prim2SF_zero.
    by_float_cases x.
  - destruct (x <? 0); reflexivity.
Qed.

(** X1: a tick of a running simulation pauses it exactly when the new
    population is [0]; a positive, infinite or NaN population never
    pauses. *)
Theorem pauses_itself_only_at_zero (s : State) :
  isRunning s = true ->
  (isRunning (advanceTick s) = false <-> population (advanceTick s) = 0).
Proof.
  intros Hrun. unfold advanceTick. rewrite Hrun.
  destruct (intervalCallback_fields s) as (Hp & _ & _ & Hr & _).
  rewrite Hp, Hr, Hrun. split.
  - destruct (newPopulation s <=? 0) eqn:Hle; [|discriminate].
    intros _. now apply Math_max_zero_leb.
  - intros ->. reflexivity.
Qed.

Lemma pauses_itself_only_at_zero_witness :
  isRunning (advanceTicks 3 dyingOut) = true
  /\ (isRunning (advanceTick (advanceTicks 3 dyingOut)) = false
      <-> population (advanceTick (advanceTicks 3 dyingOut)) = 0).
Proof.
  split; [reflexivity|].
  apply (pauses_itself_only_at_zero (advanceTicks 3 dyingOut)). reflexivity.
Defined.

(** ** Counting ticks *)

(** X2: [n] ticks append at most [n] entries to the series and add to the
    tick counter the number of entries appended; when the simulation still
    runs afterwards, exactly [n] entries were appended. *)
Theorem ticks_append (n : nat) (s : State) :
  exists added,
    data (advanceTicks n s) = data s ++ added
    /\ (List.length added <= n)%nat
    /\ time (advanceTicks n s) = (time s + Z.of_nat (List.length added))%Z
    /\ (isRunning (advanceTicks n s) = true -> List.length added = n).
Proof.
  revert s. induction n as [|n IH]; intros s; cbn [advanceTicks].
  - exists []. rewrite app_nil_r. cbn. repeat split; lia.
  - destruct (isRunning s) eqn:Hrun.
    + destruct (IH (advanceTick s)) as (added & Hd & Hlen & Ht & Hn).
      destruct (intervalCallback_fields s) as (_ & Ht1 & Hd1 & _).
      unfold advanceTick in *. rewrite Hrun in *.
      eexists (_ :: added). rewrite Hd, Hd1, <- app_assoc. cbn [app].
      split; [reflexivity|]. cbn [List.length]. unfold newTime in Ht1.
      repeat split; try lia. intros H. now rewrite (Hn H).
    + rewrite (advanceTick_inactive s Hrun), (advanceTicks_inactive n s Hrun).
      exists []. rewrite app_nil_r, Hrun. cbn.
      repeat split; try lia; discriminate.
Qed.

Lemma keepsSeries_handle (e : event) (s : State) :
  keepsSeries e -> exists added, data (handle e s) = data s ++ added.
Proof.
  destruct e as [v|v|v|v| |b| | | ]; cbn [keepsSeries handle];
    try contradiction; intros _; try (exists []; now rewrite app_nil_r).
  unfold advanceTick. destruct (isRunning s).
  - destruct (intervalCallback_fields s) as (_ & _ & Hd & _).
    eexists. exact Hd.
  - exists []. now rewrite app_nil_r.
Qed.

(** X3: the series is append-only until a reset: after any events other
    than a reset click and a new starting population, the old series is a
    prefix of the new one. *)
Theorem series_is_append_only (es : list event) (s : State) :
  Forall keepsSeries es -> exists added, data (run es s) = data s ++ added.
Proof.
  intros Hes. revert s. induction Hes as [|e es He _ IH]; intros s.
  - exists []. now rewrite app_nil_r.
  - cbn [run fold_left]. destruct (keepsSeries_handle e s He) as (a1 & H1).
    destruct (IH (handle e s)) as (a2 & H2). exists (a1 ++ a2).
    unfold run in H2. now rewrite H2, H1, app_assoc.
Qed.

Lemma series_is_append_only_witness :
  Forall keepsSeries
         [IntervalFire; DeathChanceChange 0.2; StartPauseClick; IntervalFire]
  /\ exists added,
       data (run [IntervalFire; DeathChanceChange 0.2; StartPauseClick;
                  IntervalFire] seed)
       = data seed ++ added.
Proof.
  assert (H : Forall keepsSeries
                [IntervalFire; DeathChanceChange 0.2; StartPauseClick;
                 IntervalFire]) by (repeat constructor).
  split; [exact H | apply (series_is_append_only _ seed H)].
Defined.

(** ** Pausing, resuming and the reset button *)



Lemma advanceTick_setShowResetWarning (b : bool) (s : State) :
  advanceTick (setShowResetWarning b s)
  = setShowResetWarning b (advanceTick s).
Proof.
  unfold advanceTick. cbn [isRunning setShowResetWarning].
  destruct (isRunning s); [|reflexivity].
  unfold intervalCallback.
  change (newPopulation (setShowResetWarning b s)) with (newPopulation s).
  destruct (newPopulation s <=? 0); reflexivity.
Qed.





(** X7: the slider of the starting population.  A value equal to the
    current one changes nothing, not even a running simulation; any other
    value pauses and reseeds: tick 0, population and the one entry of the
    series at the new value. *)
Theorem startingPopulation_slider (v : float) (s : State) :
  (v = startingPopulation s -> handleStartingPopulationChange v s = s)
  /\ (v <> startingPopulation s ->
      startingPopulation (handleStartingPopulationChange v s) = v
      /\ population (handleStartingPopulationChange v s) = v
      /\ time (handleStartingPopulationChange v s) = 0%Z
      /\ data (handleStartingPopulationChange v s) = [DataPoint.mk 0 v 0]
      /\ isRunning (handleStartingPopulationChange v s) = false).
Proof.
  unfold handleStartingPopulationChange, Object_is.
  destruct (Leibniz.eqb v (startingPopulation s)) eqn:Heq.
  - apply Leibniz.eqb_spec in Heq. split; [reflexivity|].
    intros H. contradiction.
  - split.
    + intros H. apply Leibniz.eqb_spec in H. congruence.
    + intros _. cbn. repeat split.
Qed.

Lemma keepsRates_handle (e : event) (s : State) :
  keepsRates e ->
  replicationChance (handle e s) = replicationChance s
  /\ deathChance (handle e s) = deathChance s
  /\ crowdingCoefficient (handle e s) = crowdingCoefficient s.
Proof.
  destruct e as [v|v|v|v| |b| | | ]; cbn [keepsRates handle];
    try contradiction; intros _; try (repeat split; reflexivity).
  - unfold handleStartingPopulationChange.
    destruct (Object_is v (startingPopulation s)); repeat split; reflexivity.
  - unfold handleResetClick. destruct (isRunning s); repeat split; reflexivity.
  - unfold advanceTick. destruct (isRunning s); [|repeat split; reflexivity].
    destruct (intervalCallback_fields s)
      as (_ & _ & _ & _ & _ & Hr & Hd & Hc).
    auto.
Qed.

(** X8: the carrying capacity the page shows changes only when a rate
    slider moves: ticks, starts, pauses, resets and a new starting
    population leave it as it is. *)
Theorem carryingCapacity_changes_with_rates_only
    (es : list event) (s : State) :
  Forall keepsRates es ->
  calculateCarryingCapacity (run es s) = calculateCarryingCapacity s.
Proof.
  intros Hes. revert s. induction Hes as [|e es He _ IH]; intros s;
    [reflexivity|].
  cbn [run fold_left]. unfold run in IH. rewrite IH.
  destruct (keepsRates_handle e s He) as (Hr & Hd & Hc).
  unfold calculateCarryingCapacity. now rewrite Hr, Hd, Hc.
Qed.

Lemma carryingCapacity_changes_with_rates_only_witness :
  Forall keepsRates
         [IntervalFire; StartPauseClick; StartingPopulationChange 500;
          ResetClick]
  /\ calculateCarryingCapacity
       (run [IntervalFire; StartPauseClick; StartingPopulationChange 500;
             ResetClick] seed)
     = calculateCarryingCapacity seed.
Proof.
  assert (H : Forall keepsRates
                [IntervalFire; StartPauseClick; StartingPopulationChange 500;
                 ResetClick]) by (repeat constructor).
  split; [exact H|].
  apply (carryingCapacity_changes_with_rates_only _ seed H).
Defined.

(** ** The shape of the series *)

Lemma deltasAreDifferences_snoc
    (rest : list DataPoint.t) (e b : DataPoint.t) :
  deltasAreDifferences (rest ++ [e]) ->
  DataPoint.delta b = DataPoint.population b - DataPoint.population e ->
  deltasAreDifferences ((rest ++ [e]) ++ [b]).
Proof.
  intros Hh Hb i x y Hx Hy.
  assert (Hlen : List.length (rest ++ [e]) = S (List.length rest))
    by (rewrite length_app; cbn; lia).
  destruct (Nat.lt_ge_cases (S i) (List.length (rest ++ [e]))) as [Hlt|Hge].
  - rewrite nth_error_app1 in Hx by lia. rewrite nth_error_app1 in Hy by lia.
    now apply (Hh i).
  - assert (Hi : i = List.length rest).
    { assert (S i < List.length ((rest ++ [e]) ++ [b]))%nat
        by (apply nth_error_Some; congruence).
      rewrite length_app in H. cbn in H. lia. }
    subst i.
    rewrite nth_error_app1 in Hx by lia.
    rewrite nth_error_app2 in Hx by lia.
    rewrite Nat.sub_diag in Hx. cbn in Hx. injection Hx as <-.
    rewrite nth_error_app2 in Hy by lia.
    replace (S (List.length rest) - List.length (rest ++ [e]))%nat with 0%nat
      in Hy by lia.
    cbn in Hy. injection Hy as <-. exact Hb.
Qed.

Lemma seriesShape_resetSimulation (s : State) :
  seriesShape (resetSimulation s).
Proof.
  split; cbn.
  - now eexists.
  - now exists [], (DataPoint.mk 0 (startingPopulation s) 0).
  - intros [|i] a b Ha Hb; cbn in Hb; [discriminate|now destruct i].
  - reflexivity.
Qed.

Lemma seriesShape_intervalCallback (s : State) :
  seriesShape s -> seriesShape (intervalCallback s).
Proof.
  intros [(rest & Hfirst) (init & e & Hlast & He) Hdeltas Hages].
  destruct (intervalCallback_fields s) as (Hp & Ht & Hd & _ & Hs & _).
  assert (Hbyage : populationByAge (intervalCallback s) = populationByAge s).
  { unfold intervalCallback. now destruct (newPopulation s <=? 0). }
  split; rewrite ?Hp, ?Hd, ?Hs, ?Hbyage.
  - rewrite Hfirst. now eexists.
  - now eexists _, _.
  - rewrite Hlast in *. apply deltasAreDifferences_snoc; [exact Hdeltas|].
    cbn. unfold tickDelta. now rewrite He.
  - exact Hages.
Qed.

Lemma seriesShape_handle (e : event) (s : State) :
  seriesShape s -> seriesShape (handle e s).
Proof.
  intros Hs. destruct e as [v|v|v|v| |b| | | ]; cbn [handle].
  - unfold handleStartingPopulationChange.
    destruct (Object_is v (startingPopulation s)); [exact Hs|].
    apply seriesShape_resetSimulation.
  - destruct Hs. now split.
  - destruct Hs. now split.
  - destruct Hs. now split.
  - destruct Hs. now split.
  - destruct Hs. now split.
  - unfold handleResetClick. destruct (isRunning s).
    + destruct Hs. now split.
    + apply seriesShape_resetSimulation.
  - unfold advanceTick. destruct (isRunning s); [|exact Hs].
    now apply seriesShape_intervalCallback.
  - destruct Hs. now split.
Qed.

Lemma reachable_seriesShape (s : State) : reachable s -> seriesShape s.
Proof.
  induction 1 as [|e s _ IH _].
  - apply seriesShape_resetSimulation.
  - now apply seriesShape_handle.
Qed.

(** The seed state after two ticks, a reachable state with a series of
    three entries. *)
Lemma reachable_second_tick : reachable (advanceTick (advanceTick seed)).
Proof.
  apply (reachable_handle IntervalFire); [exact reachable_first_tick|exact I].
Qed.

(** X9: in every reachable state the series starts with the entry of tick
    0 that holds the current starting population and delta 0. *)
Theorem series_starts_at_startingPopulation (s : State) :
  reachable s ->
  exists rest, data s = DataPoint.mk 0 (startingPopulation s) 0 :: rest.
Proof. intros Hs. now destruct (reachable_seriesShape s Hs). Qed.

Lemma series_starts_at_startingPopulation_witness :
  reachable (advanceTick (advanceTick seed))
  /\ exists rest,
       data (advanceTick (advanceTick seed))
       = DataPoint.mk 0 (startingPopulation (advanceTick (advanceTick seed))) 0
           :: rest.
Proof.
  split; [exact reachable_second_tick|].
  apply (series_starts_at_startingPopulation (advanceTick (advanceTick seed))).
  exact reachable_second_tick.
Defined.

(** X10: in every reachable state the last entry of the series holds the
    current population. *)
Theorem series_ends_at_population (s : State) :
  reachable s -> endsAt (data s) (population s).
Proof. intros Hs. now destruct (reachable_seriesShape s Hs). Qed.

Lemma series_ends_at_population_witness :
  reachable (advanceTick (advanceTick seed))
  /\ endsAt (data (advanceTick (advanceTick seed)))
            (population (advanceTick (advanceTick seed))).
Proof.
  split; [exact reachable_second_tick|].
  apply (series_ends_at_population (advanceTick (advanceTick seed))).
  exact reachable_second_tick.
Defined.

(** X11: in every reachable state each entry after the first has as delta
    its own population minus the population of the entry before it. *)
Theorem deltas_are_differences (s : State) :
  reachable s -> deltasAreDifferences (data s).
Proof. intros Hs. now destruct (reachable_seriesShape s Hs). Qed.

Lemma deltas_are_differences_witness :
  reachable (advanceTick (advanceTick seed))
  /\ deltasAreDifferences (data (advanceTick (advanceTick seed))).
Proof.
  split; [exact reachable_second_tick|].
  apply (deltas_are_differences (advanceTick (advanceTick seed))).
  exact reachable_second_tick.
Defined.

(** X12: the growth rate the page shows.  In a reachable state none is
    shown exactly when no tick has happened since the last reset (tick 0,
    a one-entry series, population at the starting population); otherwise
    the tick counter is positive and the value shown is the delta of the
    last entry, which is the current population minus the population of
    the entry before. *)
Theorem displayed_delta (s : State) :
  reachable s ->
  match displayedDelta s with
  | None =>
      time s = 0%Z
      /\ data s = [DataPoint.mk 0 (startingPopulation s) 0]
      /\ population s = startingPopulation s
  | Some d =>
      (0 < time s)%Z
      /\ exists rest prev e,
           data s = rest ++ [prev; e]
           /\ d = DataPoint.delta e
           /\ d = population s - DataPoint.population prev
  end.
Proof.
  intros Hs.
  destruct (reachable_invariant s Hs) as [Hlen _ _ _ _ _].
  destruct (reachable_seriesShape s Hs)
    as [(tl & Hfirst) (init & e & Hlast & He) Hdeltas _].
  unfold displayedDelta.
  destruct (1 <? List.length (data s))%nat eqn:Hlong.
  - apply Nat.ltb_lt in Hlong.
    assert (Hinit : init <> []).
    { intros ->. rewrite Hlast in Hlong. cbn in Hlong. lia. }
    destruct (exists_last Hinit) as (rest & prev & ->).
    assert (Hdata : data s = rest ++ [prev; e])
      by (rewrite Hlast, <- app_assoc; reflexivity).
    assert (Hl : List.length (data s) = S (S (List.length rest)))
      by (rewrite Hdata, length_app; cbn; lia).
    assert (Hprev : nth_error (data s) (List.length rest) = Some prev).
    { rewrite Hdata, nth_error_app2, Nat.sub_diag by lia. reflexivity. }
    assert (Hcur : nth_error (data s) (S (List.length rest)) = Some e).
    { rewrite Hdata, nth_error_app2 by lia.
      replace (S (List.length rest) - List.length rest)%nat with 1%nat
        by lia.
      reflexivity. }
    rewrite Hl.
    replace (S (S (List.length rest)) - 1)%nat with (S (List.length rest))
      by lia.
    rewrite Hcur. cbn [option_map].
    split; [lia|]. exists rest, prev, e. repeat split; [exact Hdata|].
    rewrite (Hdeltas _ _ _ Hprev Hcur). now rewrite He.
  - apply Nat.ltb_ge in Hlong.
    rewrite Hfirst in Hlong, Hlen. cbn in Hlong, Hlen.
    destruct tl; [|cbn in Hlong; lia].
    repeat split; [cbn in Hlen; lia | exact Hfirst |].
    rewrite Hfirst in Hlast. destruct init as [|x [|y init]].
    + cbn in Hlast. injection Hlast as <-. now rewrite <- He.
    + discriminate.
    + discriminate.
Qed.

Lemma displayed_delta_witness :
  reachable (advanceTick (advanceTick seed))
  /\ match displayedDelta (advanceTick (advanceTick seed)) with
     | None =>
         time (advanceTick (advanceTick seed)) = 0%Z
         /\ data (advanceTick (advanceTick seed))
            = [DataPoint.mk
                 0 (startingPopulation (advanceTick (advanceTick seed))) 0]
         /\ population (advanceTick (advanceTick seed))
            = startingPopulation (advanceTick (advanceTick seed))
     | Some d =>
         (0 < time (advanceTick (advanceTick seed)))%Z
         /\ exists rest prev e,
              data (advanceTick (advanceTick seed)) = rest ++ [prev; e]
              /\ d = DataPoint.delta e
              /\ d = population (advanceTick (advanceTick seed))
                     - DataPoint.population prev
     end.
Proof.
  split; [exact reachable_second_tick|].
  apply (displayed_delta (advanceTick (advanceTick seed))).
  exact reachable_second_tick.
Defined.

(** After two ticks of the seed state the page shows -4. *)
Example displayedDelta_examples :
  displayedDelta seed = None
  /\ displayedDelta (advanceTick (advanceTick seed)) = Some (-4).
Proof. vm_compute. split; reflexivity. Qed.

(** ** The age distribution *)

(** X13: in every reachable state the age distribution is the one of the
    current starting population: 41 entries, for the ages 0 to 40 in
    order, each with the count [floor(startingPopulation / 41)]. *)
Theorem age_distribution_follows_startingPopulation (s : State) :
  reachable s ->
  populationByAge s = evenDistribution (startingPopulation s)
  /\ List.length (populationByAge s) = 41%nat.
Proof.
  intros Hs. destruct (reachable_seriesShape s Hs) as [_ _ _ Hages].
  split; [exact Hages|]. now rewrite Hages.
Qed.

Lemma age_distribution_follows_startingPopulation_witness :
  reachable (advanceTick seed)
  /\ populationByAge (advanceTick seed)
     = evenDistribution (startingPopulation (advanceTick seed))
  /\ List.length (populationByAge (advanceTick seed)) = 41%nat.
Proof.
  split; [exact reachable_first_tick|].
  apply (age_distribution_follows_startingPopulation (advanceTick seed)).
  exact reachable_first_tick.
Defined.

(** X14: in every reachable state each age of the distribution lies in
    the range of exactly one age group. *)
Theorem every_age_has_one_group (s : State) :
  reachable s ->
  Forall (fun e =>
            List.length (ageGroupsOf (PopulationByAge.age e)) = 1%nat)
         (populationByAge s).
Proof.
  intros Hs. destruct (reachable_seriesShape s Hs) as [_ _ _ Hages].
  rewrite Hages. unfold evenDistribution. cbn [seq map].
  repeat constructor.
Qed.

Lemma every_age_has_one_group_witness :
  reachable (advanceTick seed)
  /\ Forall (fun e =>
               List.length (ageGroupsOf (PopulationByAge.age e)) = 1%nat)
            (populationByAge (advanceTick seed)).
Proof.
  split; [exact reachable_first_tick|].
  apply (every_age_has_one_group (advanceTick seed)).
  exact reachable_first_tick.
Defined.

Lemma steps_remainder :
  forallb remainderBelow41 startingPopulationSteps = true.
Proof. vm_compute. reflexivity. Qed.

(** X15: the even distribution drops the remainder.  For every value [v]
    the slider of the starting population delivers, each count [c] of the
    distribution after the reset satisfies [41 * c <= v < 41 * (c + 1)]:
    the 41 counts add up to at most [v] and miss it by less than 41. *)
Theorem distribution_drops_the_remainder (v : float) (s : State) :
  In v startingPopulationSteps ->
  Forall (fun e =>
            (PopulationByAge.count e * 41 <=? v) = true
            /\ (v <? (PopulationByAge.count e + 1) * 41) = true)
         (populationByAge (resetSimulation (setStartingPopulation v s))).
Proof.
  intros Hin.
  pose proof (proj1 (forallb_forall _ _) steps_remainder v Hin) as H.
  unfold remainderBelow41 in H. apply andb_prop in H as [H1 H2].
  change (populationByAge (resetSimulation (setStartingPopulation v s)))
    with (evenDistribution v).
  unfold evenDistribution. apply Forall_map, Forall_forall.
  intros a _. cbn. now split.
Qed.

Lemma distribution_drops_the_remainder_witness :
  In 100 startingPopulationSteps
  /\ Forall (fun e =>
               (PopulationByAge.count e * 41 <=? 100) = true
               /\ (100 <? (PopulationByAge.count e + 1) * 41) = true)
            (populationByAge
               (resetSimulation (setStartingPopulation 100 mount))).
Proof.
  assert (H : In 100 startingPopulationSteps)
    by (vm_compute; do 9 right; left; reflexivity).
  split; [exact H | apply (distribution_drops_the_remainder 100 mount H)].
Defined.

(** Starting populations below 41 leave every age empty; 100 puts 2 at
    each age, 82 in all. *)
Example distribution_examples :
  map (fun v => Math_floor (v / 41)) [10; 40; 100; 410; 1000]
  = [0; 0; 2; 10; 24].
Proof. vm_compute. reflexivity. Qed.

(** ** After an overflow *)

Lemma Prim2SF_nan_eq (x : float) : Prim2SF x = S754_nan -> x = nan.
Proof. intros H. apply Prim2SF_inj. now rewrite H. Qed.

Lemma is_nan_eq (x : float) : is_nan x = true -> x = nan.
Proof.
  intros H. apply Prim2SF_nan_eq. unfold Prim2SF. now rewrite H.
Qed.

Lemma mul_nan_r (x : float) : x * nan = nan.
Proof.
  apply Prim2SF_nan_eq. rewrite mul_spec. change (Prim2SF nan) with S754_nan.
  now destruct (Prim2SF x) as [[|]|[|]| |[|] ? ?].
Qed.

Lemma sub_nan_r (x : float) : x - nan = nan.
Proof.
  apply Prim2SF_nan_eq. rewrite sub_spec. change (Prim2SF nan) with S754_nan.
  now destruct (Prim2SF x) as [[|]|[|]| |[|] ? ?].
Qed.

(** From population NaN the tick computes NaN, whatever the rates. *)
Lemma newPopulation_nan (s : State) :
  population s = nan -> newPopulation s = nan.
Proof.
  intros Hp. unfold newPopulation, populationChange, growthRate.
  rewrite Hp, !mul_nan_r. vm_compute. reflexivity.
Qed.

Lemma advanceTick_nan (s : State) :
  population s = nan -> isRunning s = true ->
  population (advanceTick s) = nan
  /\ isRunning (advanceTick s) = true
  /\ time (advanceTick s) = (time s + 1)%Z.
Proof.
  intros Hp Hrun. unfold advanceTick. rewrite Hrun.
  destruct (intervalCallback_fields s) as (Ep & Et & _ & Er & _).
  rewrite Ep, Et, Er, (newPopulation_nan s Hp), Hrun. repeat split.
Qed.

(** X16: NaN is permanent.  Once the population of a running simulation is
    NaN, it is NaN after any number of further ticks, for all rates; the
    simulation never pauses itself and the tick counter keeps counting. *)
Theorem NaN_is_permanent (n : nat) (s : State) :
  is_nan (population s) = true -> isRunning s = true ->
  population (advanceTicks n s) = nan
  /\ isRunning (advanceTicks n s) = true
  /\ time (advanceTicks n s) = (time s + Z.of_nat n)%Z.
Proof.
  intros Hnan Hrun. apply is_nan_eq in Hnan. revert s Hnan Hrun.
  induction n as [|n IH]; intros s Hnan Hrun; cbn [advanceTicks].
  - repeat split; try assumption. cbn. lia.
  - destruct (advanceTick_nan s Hnan Hrun) as (Hnan' & Hrun' & Ht).
    destruct (IH _ Hnan' Hrun') as (H1 & H2 & H3).
    repeat split; try assumption. rewrite H3, Ht. lia.
Qed.

Lemma NaN_is_permanent_witness :
  is_nan (population (run (unboundedGrowth 1741) mount)) = true
  /\ isRunning (run (unboundedGrowth 1741) mount) = true
  /\ population (advanceTicks 10 (run (unboundedGrowth 1741) mount)) = nan
  /\ isRunning (advanceTicks 10 (run (unboundedGrowth 1741) mount)) = true
  /\ time (advanceTicks 10 (run (unboundedGrowth 1741) mount))
     = (time (run (unboundedGrowth 1741) mount) + Z.of_nat 10)%Z.
Proof.
  assert (Hnan : is_nan (population (run (unboundedGrowth 1741) mount)) = true)
    by (vm_compute; reflexivity).
  assert (Hrun : isRunning (run (unboundedGrowth 1741) mount) = true)
    by (vm_compute; reflexivity).
  split; [exact Hnan|]. split; [exact Hrun|].
  apply (NaN_is_permanent 10 (run (unboundedGrowth 1741) mount) Hnan Hrun).
Defined.

(** A float between 0 and a finite bound reads as a zero or as a finite
    value with the sign bit clear. *)
Lemma nonneg_finite_cases (x b : float) :
  SFfinite (Prim2SF b) = true ->
  (0 <=? x) = true -> (x <=? b) = true ->
  (exists s, Prim2SF x = S754_zero s)
  \/ (exists m e, Prim2SF x = S754_finite false m e).
Proof.
  rewrite !FloatAxioms.leb_spec, Prim2SF_zero.
  destruct (Prim2SF b) as [sb|sb| |sb mb eb]; try discriminate; intros _;
    destruct (Prim2SF x) as [[|]|[|]| |[|] m e]; cbn; try congruence;
    intros _ _; eauto.
Qed.

(** From population Infinity the tick computes NaN: [0 * Infinity] when
    the crowding coefficient is 0, and else [Infinity + (-Infinity)]. *)
Lemma newPopulation_infinity (s : State) :
  withinSliders s -> population s = infinity -> newPopulation s = nan.
Proof.
  intros (Hr0 & Hr1 & Hd0 & Hd1 & Hc0 & Hc1) Hp.
  unfold newPopulation, populationChange, growthRate. rewrite Hp.
  assert (Hrd : SFfinite (Prim2SF (replicationChance s - deathChance s))
                = true).
  { rewrite sub_spec. apply SF.SFsub_finite; now apply between_half_small. }
  assert (Hc : crowdingCoefficient s * infinity = nan
               \/ crowdingCoefficient s * infinity = infinity).
  { destruct (nonneg_finite_cases _ 0.01 eq_refl Hc0 Hc1)
      as [(sc & Hsc)|(m & e & Hsc)].
    - left. apply Prim2SF_nan_eq. rewrite mul_spec, Hsc. reflexivity.
    - right. apply Prim2SF_inj. rewrite mul_spec, Hsc. reflexivity. }
  destruct Hc as [-> | ->].
  - rewrite sub_nan_r. vm_compute. reflexivity.
  - assert (Hg : replicationChance s - deathChance s - infinity
                 = neg_infinity).
    { apply Prim2SF_inj. rewrite sub_spec.
      destruct (Prim2SF (replicationChance s - deathChance s))
        as [[|]|[|]| |[|] ? ?]; try discriminate; reflexivity. }
    rewrite Hg. vm_compute. reflexivity.
Qed.

(** X17: an overflow is permanent.  When the population of a running
    simulation is Infinity and the rates are within the slider ranges, the
    next tick makes it NaN, and it is NaN after every later tick, with the
    simulation still running. *)
Theorem overflow_is_permanent (n : nat) (s : State) :
  withinSliders s -> population s = infinity -> isRunning s = true ->
  population (advanceTicks (S n) s) = nan
  /\ isRunning (advanceTicks (S n) s) = true.
Proof.
  intros Hs Hp Hrun. cbn [advanceTicks].
  assert (Hnan : population (advanceTick s) = nan
                 /\ isRunning (advanceTick s) = true).
  { unfold advanceTick. rewrite Hrun.
    destruct (intervalCallback_fields s) as (Ep & _ & _ & Er & _).
    rewrite Ep, Er, (newPopulation_infinity s Hs Hp), Hrun.
    split; reflexivity. }
  destruct Hnan as [Hnan Hrun'].
  destruct (NaN_is_permanent n (advanceTick s)) as (H1 & H2 & _);
    [now rewrite Hnan | exact Hrun' | auto].
Qed.

Lemma overflow_is_permanent_witness :
  withinSliders (run (unboundedGrowth 1740) mount)
  /\ population (run (unboundedGrowth 1740) mount) = infinity
  /\ isRunning (run (unboundedGrowth 1740) mount) = true
  /\ population (advanceTicks 3 (run (unboundedGrowth 1740) mount)) = nan
  /\ isRunning (advanceTicks 3 (run (unboundedGrowth 1740) mount)) = true.
Proof.
  assert (Hs : withinSliders (run (unboundedGrowth 1740) mount))
    by (vm_compute; repeat split).
  assert (Hp : population (run (unboundedGrowth 1740) mount) = infinity)
    by (vm_compute; reflexivity).
  assert (Hrun : isRunning (run (unboundedGrowth 1740) mount) = true)
    by (vm_compute; reflexivity).
  split; [exact Hs|]. split; [exact Hp|]. split; [exact Hrun|].
  apply (overflow_is_permanent 2 (run (unboundedGrowth 1740) mount)
           Hs Hp Hrun).
Defined.

(** ** The bars of the statistics *)

(** Swapping the operands of a comparison swaps its outcome. *)
Lemma SFcompare_antisym (x y : spec_float) :
  SFcompare y x = option_map CompOpp (SFcompare x y).
Proof.
  destruct x as [[|]|[|]| |[|] mx ex], y as [[|]|[|]| |[|] my ey];
    try reflexivity; cbn [SFcompare option_map]; f_equal;
    assert (Hm : Pos.compare_cont Eq my mx
                 = CompOpp (Pos.compare_cont Eq mx my))
      by (symmetry; apply (Pos.compare_cont_antisym mx my Eq));
    rewrite (Z.compare_antisym ex ey), Hm;
    destruct (Z.compare ex ey); cbn [CompOpp]; try reflexivity;
    now destruct (Pos.compare_cont Eq mx my).
Qed.

(** Of two floats that are not NaN, one that is not above the other is
    below or equal to it. *)
Lemma leb_of_not_ltb (x y : float) :
  is_nan x = false -> is_nan y = false ->
  (y <? x) = false -> (x <=? y) = true.
Proof.
  intros Hx Hy. rewrite FloatAxioms.ltb_spec, FloatAxioms.leb_spec.
  unfold SFltb, SFleb.
  rewrite (SFcompare_antisym (Prim2SF x) (Prim2SF y)).
  assert (Hc : SFcompare (Prim2SF x) (Prim2SF y) <> None).
  { assert (Nx : Prim2SF x <> S754_nan).
    { intros H. apply Prim2SF_nan_eq in H. subst x. discriminate. }
    assert (Ny : Prim2SF y <> S754_nan).
    { intros H. apply Prim2SF_nan_eq in H. subst y. discriminate. }
    destruct (Prim2SF x) as [[|]|[|]| |[|] ? ?],
             (Prim2SF y) as [[|]|[|]| |[|] ? ?];
      cbn [SFcompare]; congruence. }
  destruct (SFcompare (Prim2SF x) (Prim2SF y)) as [[| |]|]; cbn; congruence.
Qed.

Lemma notNegative_SF (x : float) :
  notNegative x <-> SFnotNegative (Prim2SF x) = true.
Proof.
  unfold notNegative. rewrite FloatAxioms.leb_spec, Prim2SF_zero. split.
  - intros [H|H].
    + revert H. by_float_cases x.
    + apply is_nan_eq in H. now subst x.
  - destruct (Prim2SF x) as [[|]|[|]| |[|] ? ?] eqn:Hx; cbn; intros H;
      try discriminate; try (now left).
    right. apply Prim2SF_nan_eq in Hx. now subst x.
Qed.

(** Rounding with the sign bit clear gives nothing negative. *)
Lemma binary_round_aux_notNegative (m e : Z) (l : location) :
  SFnotNegative (binary_round_aux prec emax false m e l) = true.
Proof.
  unfold binary_round_aux.
  destruct (shr_fexp prec emax m e l) as [mrs' e'].
  destruct (shr_fexp prec emax _ e' loc_Exact) as [mrs'' e''].
  destruct (shr_m mrs''); [reflexivity| |reflexivity].
  now destruct (Z.leb e'' (emax - prec)).
Qed.

Lemma binary_round_notNegative (m : positive) (e : Z) :
  SFnotNegative (binary_round prec emax false m e) = true.
Proof.
  unfold binary_round. destruct (shl_align m e _) as [mz ez].
  apply binary_round_aux_notNegative.
Qed.

Lemma binary_normalize_notNegative (z e : Z) :
  (0 <= z)%Z -> SFnotNegative (binary_normalize prec emax z e false) = true.
Proof.
  destruct z as [|p|p]; intros Hz; [reflexivity | | lia].
  apply binary_round_notNegative.
Qed.

Lemma SFmul_notNegative (x y : spec_float) :
  SFnotNegative x = true -> SFnotNegative y = true ->
  SFnotNegative (SFmul prec emax x y) = true.
Proof.
  destruct x as [[|]|[|]| |[|] mx ex], y as [[|]|[|]| |[|] my ey];
    try discriminate; try reflexivity; intros _ _.
  apply binary_round_aux_notNegative.
Qed.

Lemma SFdiv_notNegative (x : spec_float) (my : positive) (ey : Z) :
  SFnotNegative x = true ->
  SFnotNegative (SFdiv prec emax x (S754_finite false my ey)) = true.
Proof.
  destruct x as [[|]|[|]| |[|] mx ex]; try discriminate; try reflexivity;
    intros _. cbn [SFdiv xorb].
  destruct (SFdiv_core_binary prec emax (Z.pos mx) ex (Z.pos my) ey)
    as [[mz ez] lz].
  apply binary_round_aux_notNegative.
Qed.

Lemma SFldexp_notNegative (x : spec_float) (e : Z) :
  SFnotNegative x = true -> SFnotNegative (SFldexp prec emax x e) = true.
Proof.
  destruct x as [[|]|[|]| |[|] mx ex]; try discriminate; try reflexivity;
    intros _. apply binary_round_notNegative.
Qed.

Lemma to_Z_rec_nonneg (n : nat) (i : PrimInt63.int) :
  (0 <= Uint63Axioms.to_Z_rec n i)%Z.
Proof.
  revert i. induction n as [|n IH]; intros i; cbn [Uint63Axioms.to_Z_rec];
    [lia|].
  match goal with
  | |- context [Uint63Axioms.to_Z_rec n ?j] =>
      specialize (IH j); destruct (Uint63Axioms.to_Z_rec n j) as [|p|p]
  end; [| |lia]; now destruct (Uint63Axioms.is_even i).
Qed.

(** The float of an integer that is not negative is not negative. *)
Lemma Z2float_notNegative (z : Z) : (0 <= z)%Z -> notNegative (Z2float z).
Proof.
  intros Hz. apply notNegative_SF. unfold Z2float.
  pose proof (binary_normalize_notNegative z 0 Hz) as H.
  destruct (binary_normalize prec emax z 0 false) as [[|]|[|]| |[|] m e];
    try discriminate; try reflexivity.
  cbn [SF2Prim]. rewrite Z_ldexp_spec. apply SFldexp_notNegative.
  rewrite of_uint63_spec. apply binary_normalize_notNegative.
  apply to_Z_rec_nonneg.
Qed.

(** [x / a * b] is not negative when [x] is not and [a], [b] are positive
    finite constants. *)
Lemma scaled_notNegative (x a b : float) (ma mb : positive) (ea eb : Z) :
  Prim2SF a = S754_finite false ma ea ->
  Prim2SF b = S754_finite false mb eb ->
  notNegative x -> notNegative (x / a * b).
Proof.
  intros Ha Hb Hx. apply notNegative_SF in Hx. apply notNegative_SF.
  rewrite mul_spec, div_spec, Ha, Hb.
  apply SFmul_notNegative; [|reflexivity]. now apply SFdiv_notNegative.
Qed.

(** [Math.min(100, x)] of a value that is not negative stays within the
    track. *)
Lemma Math_min_100_withinTrack (x : float) :
  notNegative x -> withinTrack (Math_min 100 x).
Proof.
  intros Hx. unfold withinTrack, Math_min.
  change (is_nan 100) with false. cbn [orb].
  destruct (is_nan x) eqn:Hnan; [now left|].
  destruct Hx as [Hx|Hx]; [|congruence]. right.
  destruct (100 <? x) eqn:Hgt; [split; reflexivity|].
  assert (Hle : (x <=? 100) = true) by (now apply leb_of_not_ltb).
  destruct (x <? 100); [now split|].
  change (get_sign 100) with false. now split.
Qed.

Lemma abs_notNegative (x : float) : notNegative (abs x).
Proof.
  apply notNegative_SF. rewrite abs_spec.
  now destruct (Prim2SF x) as [[|]|[|]| |[|] ? ?].
Qed.

(** Tick 2 of the default run: bars at 2 and 9.1 percent; a delta of -5
    fills half of the growth bar, a delta of 20 all of it. *)
Example bar_examples :
  timeBarWidth (advanceTick (advanceTick seed)) = 2
  /\ populationBarWidth (advanceTick (advanceTick seed)) = 9.1
  /\ deltaBarWidth (-5) = 50
  /\ deltaBarWidth 20 = 100.
Proof. vm_compute. repeat split. Qed.

(** * The page within the slider ranges *)

(** ** Operations that do not produce NaN

    Rounding gives a zero, a finite value or an infinity, never NaN.  NaN
    arises only from [0 * Infinity], [Infinity - Infinity] and the like, so
    the products, differences, sums and quotients below, which have a
    finite operand where it matters, are not NaN. *)

Lemma binary_round_aux_notNaN (s : bool) (m e : Z) (l : location) :
  (0 <= m)%Z -> SFnotNaN (binary_round_aux prec emax s m e l) = true.
Proof.
  intros Hm. unfold binary_round_aux.
  destruct (SF.shr_fexp_digits m e l Hm) as (H1 & _ & _).
  destruct (shr_fexp prec emax m e l) as [mrs' e'].
  cbn [fst snd] in H1.
  destruct (SF.round_nearest_even_digits (shr_m mrs') (loc_of_shr_record mrs')
              H1) as [H2 _].
  destruct (SF.shr_fexp_digits _ e' loc_Exact H2) as (H3 & _ & _).
  destruct (shr_fexp prec emax _ e' loc_Exact) as [mrs'' e''].
  cbn [fst snd] in H3.
  destruct (shr_m mrs'') as [|q|q]; [reflexivity| |lia].
  now destruct (Z.leb e'' (emax - prec)).
Qed.

Lemma binary_round_notNaN (s : bool) (m : positive) (e : Z) :
  SFnotNaN (binary_round prec emax s m e) = true.
Proof.
  unfold binary_round. destruct (shl_align m e _) as [mz ez].
  apply binary_round_aux_notNaN. lia.
Qed.

Lemma binary_normalize_notNaN (m e : Z) (sz : bool) :
  SFnotNaN (binary_normalize prec emax m e sz) = true.
Proof.
  destruct m; [reflexivity | |]; apply binary_round_notNaN.
Qed.

Lemma SFmul_finite_notNaN (x y : spec_float) :
  SFfinite x = true -> SFfinite y = true ->
  SFnotNaN (SFmul prec emax x y) = true.
Proof.
  destruct x as [sx|sx| |sx mx ex], y as [sy|sy| |sy my ey];
    try discriminate; try reflexivity; intros _ _.
  apply binary_round_aux_notNaN. lia.
Qed.

Lemma SFmul_by_finite_notNaN
    (x : spec_float) (sy : bool) (my : positive) (ey : Z) :
  SFnotNaN x = true ->
  SFnotNaN (SFmul prec emax x (S754_finite sy my ey)) = true.
Proof.
  destruct x as [sx|sx| |sx mx ex]; try discriminate; try reflexivity;
    intros _. apply binary_round_aux_notNaN. lia.
Qed.

Lemma SFsub_from_finite_notNaN (x y : spec_float) :
  SFfinite x = true -> SFnotNaN y = true ->
  SFnotNaN (SFsub prec emax x y) = true.
Proof.
  destruct x as [sx|sx| |sx mx ex], y as [sy|sy| |sy my ey];
    try discriminate; try reflexivity; intros _ _.
  - now destruct sx, sy.
  - apply binary_normalize_notNaN.
Qed.

Lemma SFadd_to_finite_notNaN
    (sx : bool) (mx : positive) (ex : Z) (y : spec_float) :
  SFnotNaN y = true ->
  SFnotNaN (SFadd prec emax (S754_finite sx mx ex) y) = true.
Proof.
  destruct y as [sy|sy| |sy my ey]; try discriminate; try reflexivity;
    intros _. apply binary_normalize_notNaN.
Qed.

Lemma SFdiv_by_finite_notNaN
    (x : spec_float) (sy : bool) (my : positive) (ey : Z) :
  SFnotNaN x = true ->
  SFnotNaN (SFdiv prec emax x (S754_finite sy my ey)) = true.
Proof.
  destruct x as [sx|sx| |sx mx ex]; try discriminate; try reflexivity;
    intros _. cbn [SFdiv].
  assert (Hq : (0 <= fst (fst (SFdiv_core_binary prec emax (Z.pos mx) ex
                                  (Z.pos my) ey)))%Z).
  { unfold SFdiv_core_binary.
    set (m' := match _ with Zpos _ => _ | Z0 => _ | Zneg _ => _ end).
    assert (Hm' : (0 <= m')%Z).
    { subst m'. destruct (_ - _ - _)%Z; try lia.
      apply Z.shiftl_nonneg. lia. }
    pose proof (Z.div_pos m' (Z.pos my) Hm' eq_refl) as Hdiv.
    unfold Z.div in Hdiv.
    destruct (Z.div_eucl m' (Z.pos my)) as [q r]. exact Hdiv. }
  destruct (SFdiv_core_binary prec emax (Z.pos mx) ex (Z.pos my) ey)
    as [[mz ez] lz].
  cbn [fst] in Hq. now apply binary_round_aux_notNaN.
Qed.

Lemma SFldexp_notNaN (x : spec_float) (e : Z) :
  SFnotNaN x = true -> SFnotNaN (SFldexp prec emax x e) = true.
Proof.
  destruct x as [sx|sx| |sx mx ex]; try discriminate; try reflexivity;
    intros _. apply binary_round_notNaN.
Qed.

(** [is_nan] on the reading of a float. *)
Lemma is_nan_false_SF (x : float) :
  is_nan x = false <-> SFnotNaN (Prim2SF x) = true.
Proof.
  split.
  - intros H. destruct (Prim2SF x) eqn:Hx; try reflexivity.
    apply Prim2SF_nan_eq in Hx. subst x. discriminate.
  - intros H. destruct (is_nan x) eqn:Hn; [|reflexivity].
    apply is_nan_eq in Hn. subst x. discriminate.
Qed.

(** The float of an integer is not NaN, and neither are [Math.round] and
    [Math.max(0, _)] of a float that is not NaN. *)
Lemma Z2float_notNaN (z : Z) : is_nan (Z2float z) = false.
Proof.
  unfold Z2float.
  pose proof (binary_normalize_notNaN z 0 false) as H.
  destruct (binary_normalize prec emax z 0 false) as [[|]|[|]| |s m e];
    try discriminate; try reflexivity.
  assert (Hf : SFnotNaN
                 (Prim2SF (Z.ldexp (of_uint63 (Uint63Axioms.of_Z (Z.pos m))) e))
               = true).
  { rewrite Z_ldexp_spec. apply SFldexp_notNaN.
    rewrite of_uint63_spec. apply binary_normalize_notNaN. }
  cbn [SF2Prim]. apply is_nan_false_SF. destruct s; [|exact Hf].
  rewrite opp_spec.
  now destruct (Prim2SF (Z.ldexp (of_uint63 (Uint63Axioms.of_Z (Z.pos m))) e)).
Qed.

Lemma Math_round_notNaN (x : float) :
  is_nan x = false -> is_nan (Math_round x) = false.
Proof.
  intros Hx. unfold Math_round.
  destruct (Prim2SF x) as [s|s| |s m e]; try exact Hx.
  destruct (0 <=? e)%Z; [exact Hx|].
  unfold integral. destruct (_ =? 0)%Z; [now destruct s|].
  apply Z2float_notNaN.
Qed.

Lemma Math_max_zero_notNaN (y : float) :
  is_nan y = false -> is_nan (Math_max 0 y) = false.
Proof.
  intros Hy. unfold Math_max. rewrite Hy.
  change (is_nan 0) with false. cbn [orb].
  destruct (0 <? y); [exact Hy|].
  destruct (y <? 0); [reflexivity|]. change (get_sign 0) with false.
  reflexivity.
Qed.

Lemma leb_zero_notNaN (x : float) : (0 <=? x) = true -> is_nan x = false.
Proof.
  intros H. destruct (is_nan x) eqn:Hn; [|reflexivity].
  apply is_nan_eq in Hn. subst x. discriminate.
Qed.

Lemma notNegative_notNaN (x : float) :
  notNegative x -> is_nan x = false -> (0 <=? x) = true.
Proof. intros [H|H] Hn; [exact H | congruence]. Qed.

(** A float that is at least 0 is zero, finite or [Infinity]. *)
Lemma nonneg_cases (p : float) :
  (0 <=? p) = true -> SFfinite (Prim2SF p) = true \/ p = infinity.
Proof.
  rewrite FloatAxioms.leb_spec, Prim2SF_zero.
  destruct (Prim2SF p) as [[|]|[|]| |[|] m e] eqn:Hp; cbn; try discriminate;
    intros _; try (now left).
  right. apply Prim2SF_inj. now rewrite Hp.
Qed.

(** A tick from a finite population, with rates within the slider ranges,
    does not give NaN: the growth rate is finite, and so is each operand
    that meets an infinite product. *)
Lemma newPopulation_notNaN (s : State) :
  withinSliders s -> SFfinite (Prim2SF (population s)) = true ->
  is_nan (newPopulation s) = false.
Proof.
  intros Hs Hfin.
  destruct (Prim2SF (population s)) as [sp|sp| |sp mp ep] eqn:HP;
    try discriminate.
  - destruct (Prim2SF_zero_cases _ _ HP) as [H0|H0].
    + destruct (zero_is_fixed s Hs) as [-> _]; [now rewrite H0|reflexivity].
    + destruct (zero_is_fixed s Hs) as [-> _]; [now rewrite H0|reflexivity].
  - destruct Hs as (Hr0 & Hr1 & Hd0 & Hd1 & Hc0 & Hc1).
    unfold newPopulation, populationChange, growthRate.
    apply Math_max_zero_notNaN, Math_round_notNaN, is_nan_false_SF.
    rewrite add_spec, HP. apply SFadd_to_finite_notNaN.
    rewrite mul_spec, HP. apply SFmul_by_finite_notNaN.
    rewrite sub_spec. apply SFsub_from_finite_notNaN.
    + rewrite sub_spec. apply SF.SFsub_finite; now apply between_half_small.
    + rewrite mul_spec, HP. apply SFmul_finite_notNaN; [|reflexivity].
      now apply (between_finite _ 0.01).
Qed.

(** ** The invariant of the page *)

(** The starting population slider delivers values that are not
    negative, so the states of the page are reachable states. *)
Lemma leb_10_nonneg (v : float) : (10 <=? v) = true -> (0 <=? v) = true.
Proof.
  rewrite !FloatAxioms.leb_spec, Prim2SF_zero.
  change (Prim2SF 10) with (S754_finite false 5629499534213120 (-49)).
  intros H. destruct (Prim2SF v) as [[|]|[|]| |[|] m e];
    try reflexivity; discriminate H.
Qed.

Lemma delivered_accepted (e : event) : delivered e -> accepted e.
Proof.
  destruct e; cbn; try tauto. intros [H _]. now apply leb_10_nonneg.
Qed.

Lemma reachableOnPage_reachable (s : State) :
  reachableOnPage s -> reachable s.
Proof.
  induction 1 as [|e s _ IH He]; [constructor|].
  constructor; [exact IH | now apply delivered_accepted].
Qed.

(** Appending to the series, or looking further along it, keeps an
    overflow that has been recorded. *)
Lemma overflowedBefore_app (h t : list DataPoint.t) (i k : nat) :
  (i <= k)%nat -> overflowedBefore h i -> overflowedBefore (h ++ t) k.
Proof.
  intros Hik (j & e & Hj & He & Hinf). exists j, e. repeat split; [lia| |exact Hinf].
  rewrite nth_error_app1; [exact He|]. apply nth_error_Some. congruence.
Qed.

Lemma populationSound_app (h t : list DataPoint.t) (i k : nat) (p : float) :
  (i <= k)%nat -> populationSound h i p -> populationSound (h ++ t) k p.
Proof.
  intros Hik [H|[Hn Ho]]; [now left|right].
  split; [exact Hn | now apply (overflowedBefore_app h t i k)].
Qed.

(** The population after a tick is sound as the next entry of the series:
    a finite population gives a value that is at least 0; [Infinity],
    which is then the last entry, may give NaN; and NaN, which follows an
    overflow, stays NaN. *)
Lemma newPopulation_sound (s : State) :
  withinSliders s ->
  endsAt (data s) (population s) ->
  populationSound (data s) (List.length (data s)) (population s) ->
  forall t, populationSound (data s ++ t) (List.length (data s))
                            (newPopulation s).
Proof.
  intros Hs (rest & e & Hd & He) [Hpos|[Hnan Hover]] t.
  - destruct (nonneg_cases _ Hpos) as [Hfin|Hinf].
    + left. apply notNegative_notNaN.
      * apply Math_max_zero_notNegative.
      * now apply newPopulation_notNaN.
    + right. rewrite (newPopulation_infinity s Hs Hinf). split; [reflexivity|].
      exists (List.length rest), e. rewrite Hd at 1. rewrite length_app. cbn.
      repeat split; [lia| |congruence].
      rewrite Hd, <- app_assoc, nth_error_app2, Nat.sub_diag by lia.
      reflexivity.
  - right. rewrite (newPopulation_nan s (is_nan_eq _ Hnan)).
    split; [reflexivity|]. now apply (overflowedBefore_app _ t _ _ (le_n _)).
Qed.

Lemma pageInvariant_resetSimulation (s : State) :
  withinSliders s -> (0 <=? startingPopulation s) = true ->
  pageInvariant (resetSimulation s).
Proof.
  intros Hs Hsp. split; cbn.
  - exact Hs.
  - now left.
  - intros [|[|i]] e Hi; cbn in Hi; try discriminate.
    injection Hi as <-. now left.
Qed.

Lemma pageInvariant_intervalCallback (s : State) :
  endsAt (data s) (population s) ->
  pageInvariant s -> pageInvariant (intervalCallback s).
Proof.
  intros Hend [Hrates Hpop Hser].
  destruct (intervalCallback_fields s)
    as (Ep & _ & Ed & _ & _ & Er & Edc & Ec).
  pose proof (newPopulation_sound s Hrates Hend Hpop
                [DataPoint.mk (newTime s) (newPopulation s) (tickDelta s)])
    as Hnew.
  split.
  - unfold withinSliders. now rewrite Er, Edc, Ec.
  - rewrite Ep, Ed. rewrite length_app. cbn [List.length].
    destruct Hnew as [H|[Hn (j & e & Hj & He & Hinf)]]; [now left|right].
    split; [exact Hn|]. exists j, e. repeat split; [lia|exact He|exact Hinf].
  - rewrite Ed. intros i e Hi.
    destruct (Nat.lt_ge_cases i (List.length (data s))) as [Hlt|Hge].
    + rewrite nth_error_app1 in Hi by exact Hlt.
      apply (populationSound_app _ _ i i); [lia | now apply Hser].
    + rewrite nth_error_app2 in Hi by exact Hge.
      destruct (i - List.length (data s))%nat as [|k] eqn:Hk; cbn in Hi.
      * injection Hi as <-. cbn.
        replace i with (List.length (data s)) by lia. exact Hnew.
      * now destruct k.
Qed.

Lemma withinSliders_mount : withinSliders mount.
Proof. vm_compute. repeat split. Qed.

(** Every handler keeps the invariant. *)
Lemma reachableOnPage_invariant (s : State) :
  reachableOnPage s ->
  pageInvariant s /\ (0 <=? startingPopulation s) = true.
Proof.
  induction 1 as [|e s Hs [IH Hsp] He].
  - split; [|reflexivity].
    apply pageInvariant_resetSimulation; [vm_compute; repeat split|reflexivity].
  - pose proof (reachableOnPage_reachable s Hs) as Hreach.
    destruct (reachable_seriesShape s Hreach) as [_ Hend _ _].
    pose proof IH as [Hrates Hpop Hser].
    pose proof Hrates as (Hr0 & Hr1 & Hd0 & Hd1 & Hc0 & Hc1).
    destruct e as [v|v|v|v| |b| | | ]; cbn [handle delivered] in *.
    + unfold handleStartingPopulationChange.
      destruct (Object_is v (startingPopulation s)); [now split|].
      destruct He as [He _]. apply leb_10_nonneg in He.
      split; [|exact He]. now apply pageInvariant_resetSimulation.
    + destruct He. split; [split|]; try assumption. now repeat split.
    + destruct He. split; [split|]; try assumption. now repeat split.
    + destruct He. split; [split|]; try assumption. now repeat split.
    + now split; [split|].
    + now split; [split|].
    + unfold handleResetClick. destruct (isRunning s).
      * now split; [split|].
      * split; [|exact Hsp]. now apply pageInvariant_resetSimulation.
    + unfold advanceTick. destruct (isRunning s); [|now split].
      split; [now apply pageInvariant_intervalCallback|].
      destruct (intervalCallback_fields s) as (_ & _ & _ & _ & Es & _).
      now rewrite Es.
    + now split; [split|].
Qed.

Lemma reachableOnPage_run (es : list event) (s : State) :
  reachableOnPage s -> Forall delivered es -> reachableOnPage (run es s).
Proof.
  revert s. induction es as [|e es IH]; intros s Hs Hes; cbn; [exact Hs|].
  inversion Hes as [|? ? He Hrest]; subst.
  apply IH; [|exact Hrest]. now constructor.
Qed.

Lemma delivered_unboundedGrowth (n : nat) :
  Forall delivered (unboundedGrowth n).
Proof.
  unfold unboundedGrowth. apply Forall_app. split.
  - repeat constructor.
  - apply Forall_forall. intros e He. apply repeat_spec in He. now subst.
Qed.

Lemma onPage_second_tick : reachableOnPage (advanceTick (advanceTick seed)).
Proof.
  apply (onPage_handle IntervalFire); [|exact I].
  apply (onPage_handle IntervalFire); [|exact I].
  apply (onPage_handle StartPauseClick); constructor.
Qed.

(** C5, as the code has it.  In every state of the page, with the values
    the sliders deliver: the series is not empty, entry [i] carries tick
    [i], the current population and every recorded population is at least
    0, or it is NaN and an earlier entry of the series has population
    [Infinity], and the first entry has delta 0. *)
Theorem populations_on_page (s : State) :
  reachableOnPage s ->
  data s <> []
  /\ ticksAreIndices (data s)
  /\ populationSound (data s) (List.length (data s)) (population s)
  /\ (forall (i : nat) (e : DataPoint.t),
        nth_error (data s) i = Some e ->
        populationSound (data s) i (DataPoint.population e))
  /\ seededSeries (data s).
Proof.
  intros Hs.
  destruct (reachableOnPage_invariant s Hs) as [[_ Hpop Hser] _].
  destruct (reachable_invariant s (reachableOnPage_reachable s Hs))
    as [_ Ht (e & r & Hd & He) _ _ _].
  repeat split; try assumption.
  - rewrite Hd. discriminate.
  - now exists e, r.
Qed.

Lemma populations_on_page_witness :
  reachableOnPage (advanceTick (advanceTick seed))
  /\ data (advanceTick (advanceTick seed)) <> []
  /\ ticksAreIndices (data (advanceTick (advanceTick seed)))
  /\ populationSound (data (advanceTick (advanceTick seed)))
       (List.length (data (advanceTick (advanceTick seed))))
       (population (advanceTick (advanceTick seed)))
  /\ (forall (i : nat) (e : DataPoint.t),
        nth_error (data (advanceTick (advanceTick seed))) i = Some e ->
        populationSound (data (advanceTick (advanceTick seed))) i
                        (DataPoint.population e))
  /\ seededSeries (data (advanceTick (advanceTick seed))).
Proof.
  split; [exact onPage_second_tick|].
  apply (populations_on_page (advanceTick (advanceTick seed))).
  exact onPage_second_tick.
Defined.

(** The overflowing run consists of slider values: its state at tick 1741
    is a state of the page, with population NaN after the [Infinity] of
    entry 1740. *)
Example overflow_on_page :
  reachableOnPage (run (unboundedGrowth 1741) mount)
  /\ is_nan (population (run (unboundedGrowth 1741) mount)) = true
  /\ overflowedBefore (data (run (unboundedGrowth 1741) mount)) 1741.
Proof.
  split.
  - apply reachableOnPage_run; [constructor|apply delivered_unboundedGrowth].
  - split; [vm_compute; reflexivity|].
    exists 1740%nat. eexists. split; [lia|]. split.
    + vm_compute. reflexivity.
    + reflexivity.
Qed.

(** ** The bars, on the page *)

(** [Math.min(100, x)] of a value that is at least 0 lies between 0 and
    100. *)
Lemma Math_min_100_inTrack (x : float) :
  (0 <=? x) = true -> inTrack (Math_min 100 x).
Proof.
  intros Hx. pose proof (leb_zero_notNaN x Hx) as Hnan.
  unfold inTrack, Math_min.
  change (is_nan 100) with false. cbn [orb]. rewrite Hnan.
  destruct (100 <? x) eqn:Hgt; [split; reflexivity|].
  assert (Hle : (x <=? 100) = true) by (now apply leb_of_not_ltb).
  destruct (x <? 100); [now split|].
  change (get_sign 100) with false. now split.
Qed.

(** [x / a * b] is at least 0 when [x] is and [a], [b] are positive. *)
Lemma scaled_nonneg (x a b : float) (ma mb : positive) (ea eb : Z) :
  Prim2SF a = S754_finite false ma ea ->
  Prim2SF b = S754_finite false mb eb ->
  (0 <=? x) = true -> (0 <=? x / a * b) = true.
Proof.
  intros Ha Hb Hx. apply notNegative_notNaN.
  - apply (scaled_notNegative x a b ma mb ea eb Ha Hb). now left.
  - apply is_nan_false_SF. rewrite mul_spec, Hb.
    apply SFmul_by_finite_notNaN. rewrite div_spec, Ha.
    apply SFdiv_by_finite_notNaN. apply is_nan_false_SF.
    now apply leb_zero_notNaN.
Qed.

Lemma Z2float_nonneg (z : Z) : (0 <= z)%Z -> (0 <=? Z2float z) = true.
Proof.
  intros Hz. apply notNegative_notNaN.
  - now apply Z2float_notNegative.
  - apply Z2float_notNaN.
Qed.

(** X18: the bars stay within their track.  In every state of the page
    the width of the tick bar is between 0 and 100; the width of the
    population bar is between 0 and 100, or it is NaN and the series holds
    an entry with population [Infinity]; and the width of the growth bar is
    between 0 and 100 or NaN, for every delta. *)
Theorem bars_stay_within_track (s : State) :
  reachableOnPage s ->
  inTrack (timeBarWidth s)
  /\ (inTrack (populationBarWidth s)
      \/ (is_nan (populationBarWidth s) = true
          /\ overflowedBefore (data s) (List.length (data s))))
  /\ forall d : float, withinTrack (deltaBarWidth d).
Proof.
  intros Hs.
  pose proof (reachableOnPage_reachable s Hs) as Hreach.
  destruct (reachable_invariant s Hreach)
    as [Hlen _ (e & r & Hd & _) _ _ _].
  assert (Ht : (0 <= time s)%Z) by (rewrite Hd in Hlen; cbn in Hlen; lia).
  destruct (reachableOnPage_invariant s Hs) as [[_ Hpop _] _].
  split; [|split].
  - apply Math_min_100_inTrack.
    eapply scaled_nonneg; try reflexivity. now apply Z2float_nonneg.
  - destruct Hpop as [Hpos|[Hnan Hover]].
    + left. apply Math_min_100_inTrack.
      eapply scaled_nonneg; try reflexivity. exact Hpos.
    + right. split; [|exact Hover]. unfold populationBarWidth.
      rewrite (is_nan_eq _ Hnan). vm_compute. reflexivity.
  - intros d. apply Math_min_100_withinTrack. apply notNegative_SF.
    rewrite mul_spec. apply SFmul_notNegative; [|reflexivity].
    apply notNegative_SF, abs_notNegative.
Qed.


Lemma bars_stay_within_track_witness :
  reachableOnPage (advanceTick (advanceTick seed))
  /\ inTrack (timeBarWidth (advanceTick (advanceTick seed)))
  /\ (inTrack (populationBarWidth (advanceTick (advanceTick seed)))
      \/ (is_nan (populationBarWidth (advanceTick (advanceTick seed))) = true
          /\ overflowedBefore
               (data (advanceTick (advanceTick seed)))
               (List.length (data (advanceTick (advanceTick seed))))))
  /\ forall d : float, withinTrack (deltaBarWidth d).
Proof.
  split; [exact onPage_second_tick|].
  apply (bars_stay_within_track (advanceTick (advanceTick seed))).
  exact onPage_second_tick.
Defined.

(** After the overflow the population bar has no width: NaN, where the
    tick bar is full. *)
Example bars_after_overflow :
  is_nan (populationBarWidth (run (unboundedGrowth 1741) mount)) = true
  /\ timeBarWidth (run (unboundedGrowth 1741) mount) = 100
  /\ populationBarWidth (run (unboundedGrowth 1740) mount) = 100.
Proof. vm_compute. repeat split. Qed.

(** ** The timers and the reset warning *)

Lemma Object_is_refl (x : float) : Object_is x x = true.
Proof. unfold Object_is. now apply Leibniz.eqb_spec. Qed.

Lemma sameDeps_refl (s : State) : sameDeps s s = true.
Proof.
  unfold sameDeps.
  now rewrite Bool.eqb_reflx, Z.eqb_refl, !Object_is_refl.
Qed.

(** The warning flag passes through every handler but those of the Reset
    button and of the timeout, and the tick effect does not read it. *)
Lemma handle_setShowResetWarning (e : event) (b : bool) (s : State) :
  leavesReset e = true \/ e = IntervalFire ->
  handle e (setShowResetWarning b s) = setShowResetWarning b (handle e s).
Proof.
  intros [He|He].
  - destruct e; try discriminate He; cbn [handle]; try reflexivity.
    unfold handleStartingPopulationChange.
    cbn [startingPopulation setShowResetWarning].
    destruct (Object_is v (startingPopulation s)); reflexivity.
  - subst e. apply advanceTick_setShowResetWarning.
Qed.

Lemma handle_showResetWarning (e : event) (s : State) :
  leavesReset e = true \/ e = IntervalFire ->
  showResetWarning (handle e s) = showResetWarning s.
Proof.
  intros He.
  pose proof (handle_setShowResetWarning e (showResetWarning s) s He) as H.
  assert (Hs : setShowResetWarning (showResetWarning s) s = s)
    by now destruct s.
  rewrite Hs in H. rewrite H. reflexivity.
Qed.

Lemma tickEffect_setShowResetWarning (b : bool) (t : Z) (s s' : State)
    (due : option Z) :
  tickEffect t (setShowResetWarning b s) (setShowResetWarning b s') due
  = tickEffect t s s' due.
Proof. reflexivity. Qed.

(** The click on a running simulation starts the relation, and the user's
    events and the passing of time keep it. *)
Lemma clicked_deliver_ResetClick (p : Page) :
  isRunning (hooks p) = true ->
  showResetWarning (hooks p) = false ->
  warningTimeouts p = [] ->
  clicked (clock p + 3000) p (deliver ResetClick p).
Proof.
  intros Hrun Hw Ht. repeat split; try assumption.
  unfold withWarningUntil.
  replace (clock p <? clock p + 3000)%Z with true by (symmetry; lia).
  unfold deliver. cbn [handle timeoutsStarted]. unfold handleResetClick.
  rewrite Hrun, Ht. cbn [map app]. f_equal.
  unfold tickEffect.
  replace (sameDeps (hooks p) (setShowResetWarning true (hooks p)))
    with (sameDeps (hooks p) (hooks p)) by reflexivity.
  now rewrite sameDeps_refl.
Qed.

Lemma clicked_deliver (due : Z) (e : event) (q q' : Page) :
  leavesReset e = true ->
  clicked due q q' -> clicked due (deliver e q) (deliver e q').
Proof.
  intros He (Hw & Ht & ->). repeat split.
  - cbn [deliver hooks]. now rewrite handle_showResetWarning by now left.
  - cbn [deliver warningTimeouts]. rewrite Ht.
    now destruct e; try discriminate He.
  - unfold withWarningUntil. cbn [deliver clock].
    destruct (clock q <? due)%Z; [|reflexivity].
    unfold deliver. cbn [hooks clock intervalDue warningTimeouts].
    rewrite handle_setShowResetWarning by now left.
    rewrite tickEffect_setShowResetWarning.
    now destruct e; try discriminate He.
Qed.

Lemma clicked_millisecond (due : Z) (q q' : Page) :
  clicked due q q' -> clicked due (millisecond q) (millisecond q').
Proof.
  intros (Hw & Ht & ->).
  assert (Hfire : forall p : Page,
             showResetWarning (hooks p) = false ->
             warningTimeouts p = [] ->
             showResetWarning (hooks (fireInterval p)) = false
             /\ warningTimeouts (fireInterval p) = []).
  { intros p Hp Hl. unfold fireInterval.
    destruct (intervalDue p) as [d|]; [|now split].
    destruct (d <=? clock p)%Z; [|now split].
    cbn [hooks warningTimeouts]. split; [|exact Hl].
    now rewrite handle_showResetWarning by now right. }
  assert (Hq : fireTimeouts
                 (mkPage (hooks q) (clock q + 1) (intervalDue q)
                         (warningTimeouts q))
               = mkPage (hooks q) (clock q + 1) (intervalDue q) []).
  { unfold fireTimeouts. cbn [hooks clock intervalDue warningTimeouts].
    now rewrite Ht. }
  unfold millisecond at 1 2. rewrite Hq.
  destruct (Hfire (mkPage (hooks q) (clock q + 1) (intervalDue q) []) Hw
              eq_refl) as [Hw' Ht'].
  repeat split; try assumption.
  unfold withWarningUntil.
  assert (Hclock : clock (fireInterval
                            (mkPage (hooks q) (clock q + 1) (intervalDue q)
                                    []))
                   = (clock q + 1)%Z).
  { unfold fireInterval. cbn [intervalDue clock].
    destruct (intervalDue q) as [d|]; [|reflexivity].
    now destruct (d <=? clock q + 1)%Z. }
  rewrite Hclock.
  destruct (clock q <? due)%Z eqn:Hbefore.
  - unfold millisecond, fireTimeouts.
    cbn [hooks clock intervalDue warningTimeouts filter].
    destruct (clock q + 1 <? due)%Z eqn:Hnext.
    + replace (due <=? clock q + 1)%Z with false by (symmetry; lia).
      cbn [negb fold_left]. unfold fireInterval.
      cbn [hooks clock intervalDue warningTimeouts].
      destruct (intervalDue q) as [d|]; [|reflexivity].
      destruct (d <=? clock q + 1)%Z; [|reflexivity].
      cbn [hooks clock intervalDue warningTimeouts].
      rewrite handle_setShowResetWarning by now right.
      now rewrite tickEffect_setShowResetWarning.
    + replace (due <=? clock q + 1)%Z with true by (symmetry; lia).
      cbn [negb fold_left handle].
      replace (setShowResetWarning false
                 (setShowResetWarning true (hooks q)))
        with (hooks q); [reflexivity|].
      destruct (hooks q). cbn in Hw. now subst.
  - replace (clock q + 1 <? due)%Z with false by (symmetry; lia).
    unfold millisecond. rewrite Hq. reflexivity.
Qed.

Lemma clicked_elapse (due : Z) (ms : nat) (q q' : Page) :
  clicked due q q' -> clicked due (elapse ms q) (elapse ms q').
Proof.
  intros H. induction ms as [|ms IH]; [exact H|].
  cbn [elapse Nat.iter]. now apply clicked_millisecond.
Qed.

Lemma clicked_play (due : Z) (script : list (nat * event)) (q q' : Page) :
  forallb (fun step => leavesReset (snd step)) script = true ->
  clicked due q q' -> clicked due (play script q) (play script q').
Proof.
  revert q q'.
  induction script as [|[ms e] script IH]; intros q q' Hs H; [exact H|].
  cbn [forallb snd] in Hs. apply andb_prop in Hs. destruct Hs as [He Hs].
  cbn [play fold_left fst snd]. apply IH; [exact Hs|].
  apply clicked_deliver; [exact He|]. now apply clicked_elapse.
Qed.

(** X5: a Reset click on a running simulation only warns.  When no
    warning is showing and no timeout is pending, then whatever the user
    does next with the sliders and Start/Pause, and however much time
    passes, the page with its timers is the page it would have been
    without the click, except that up to 3000 ms after the click the
    warning shows and its timeout is pending. *)
Theorem rejected_reset_only_warns
    (script : list (nat * event)) (ms : nat) (p : Page) :
  isRunning (hooks p) = true ->
  showResetWarning (hooks p) = false ->
  warningTimeouts p = [] ->
  forallb (fun step => leavesReset (snd step)) script = true ->
  elapse ms (play script (deliver ResetClick p))
  = withWarningUntil (clock p + 3000) (elapse ms (play script p)).
Proof.
  intros Hrun Hw Ht Hs.
  apply (clicked_elapse (clock p + 3000) ms (play script p)).
  apply clicked_play; [exact Hs|].
  now apply clicked_deliver_ResetClick.
Qed.

Lemma rejected_reset_only_warns_witness :
  isRunning (hooks startedPage) = true
  /\ elapse 1000
       (play [(700%nat, ReplicationChanceChange 0.2); (1500%nat, StartPauseClick)]
             (deliver ResetClick startedPage))
     = withWarningUntil (clock startedPage + 3000)
         (elapse 1000
            (play [(700%nat, ReplicationChanceChange 0.2);
                   (1500%nat, StartPauseClick)] startedPage)).
Proof.
  split; [reflexivity|].
  apply (rejected_reset_only_warns
           [(700%nat, ReplicationChanceChange 0.2); (1500%nat, StartPauseClick)]
           1000 startedPage); reflexivity.
Defined.

(** A click 200 ms after the second tick: the warning shows for the six
    ticks of the next 2999 ms and is gone at 3000 ms, before the seventh
    tick. *)
Example warning_lasts_three_seconds :
  (clock startedPage, time (hooks startedPage)) = (1200%Z, 2%Z)
  /\ (showResetWarning (hooks (elapse 2999 (deliver ResetClick startedPage))),
      time (hooks (elapse 2999 (deliver ResetClick startedPage))))
     = (true, 8%Z)
  /\ (showResetWarning (hooks (elapse 3000 (deliver ResetClick startedPage))),
      time (hooks (elapse 3000 (deliver ResetClick startedPage))))
     = (false, 8%Z)
  /\ (showResetWarning (hooks (elapse 3300 (deliver ResetClick startedPage))),
      time (hooks (elapse 3300 (deliver ResetClick startedPage))))
     = (false, 9%Z).
Proof. vm_compute. repeat split. Qed.
